(** * Pneumonia-detection-using-XAI: the X-ray pixel filter and the
      view state of [XRayProcessor]

    A shallow embedding of the algorithmic parts of the React component
    [XRayProcessor]:

    - the arithmetic of JavaScript Numbers that the code uses (binary64
      rounding, [Math.min], [Math.max], [Math.floor]) and the store
      conversion of a [Uint8ClampedArray];
    - the loop of [applyXRayEffect] over [imageData.data], index by index
      and updating the array in place;
    - the canvas objects that [applyXRayEffect] allocates, as a store;
    - the mock confidence [Math.floor(Math.random() * 40) + 60], which
      [AdvancedXRayProcessor] computes by the same expression;
    - the state of the component and its handlers as a labelled step
      relation, one step per callback that the event loop runs;

    and of what stands beside it in the repository:

    - the state, the handlers and the mock values of
      [AdvancedXRayProcessor], as a step relation of the same kind;
    - the table, the sort and [getBestModel] of [ModelComparison];
    - the quick start script, with its polling loop. *)

From Stdlib Require Import ZArith QArith Qround Qabs Qpower Lia Lqa List String Sorted.
From stdpp Require Import base option list gmap.

Local Open Scope Z_scope.

(** ** JavaScript Numbers *)

Module JS.

(** A Number is a binary64 value.  The finite ones are rationals; [NaN] is
    what [ToNumber(undefined)] gives, and every operation propagates it.
    The infinities and the sign of zero are left out: every Number that the
    modelled code computes has magnitude below 2^10. *)
Inductive Number : Type :=
  | Fin (q : Q)
  | NaN.

Definition pow2 (e : Z) : Q := Qpower (2 # 1) e.

(** [ilog2 q] is the binary exponent of a positive rational:
    2^(ilog2 q) <= q < 2^(ilog2 q + 1). *)
Definition ilog2 (q : Q) : Z :=
  let e := Z.log2 (Qnum q) - Z.log2 (Z.pos (Qden q)) in
  if Qle_bool (pow2 e) q then e else e - 1.

(** Round to the nearest integer, ties to the even one. *)
Definition round_half_even (y : Q) : Z :=
  let f := Qfloor y in
  match Qcompare y (inject_Z f + (1 # 2)) with
  | Lt => f
  | Gt => f + 1
  | Eq => if Z.even f then f else f + 1
  end.

(** Rounding of an exact result to binary64 (round to nearest, ties to
    even): 53 significant bits, the exponent never below that of the
    subnormal numbers. *)
Definition exponent (q : Q) : Z := Z.max (ilog2 (Qabs q)) (-1022).

Definition ulp (q : Q) : Q := pow2 (exponent q - 52).

Definition b64 (q : Q) : Q :=
  if Qeq_bool q 0 then 0%Q
  else Qred (inject_Z (round_half_even (q / ulp q)) * ulp q).

Definition lift2 (f : Q -> Q -> Q) (a b : Number) : Number :=
  match a, b with
  | Fin x, Fin y => Fin (f x y)
  | _, _ => NaN
  end.

Definition sub : Number -> Number -> Number := lift2 (fun x y => b64 (x - y)).
Definition add : Number -> Number -> Number := lift2 (fun x y => b64 (x + y)).
Definition mul : Number -> Number -> Number := lift2 (fun x y => b64 (x * y)).

(** [Math.min] and [Math.max] of two arguments: [NaN] if either is. *)
Definition Math_min : Number -> Number -> Number :=
  lift2 (fun x y => if Qle_bool x y then x else y).
Definition Math_max : Number -> Number -> Number :=
  lift2 (fun x y => if Qle_bool x y then y else x).

(** [a > b]: false when either side is [NaN]. *)
Definition gt (a b : Number) : bool :=
  match a, b with
  | Fin x, Fin y => negb (Qle_bool x y)
  | _, _ => false
  end.

Definition Math_floor (a : Number) : Number :=
  match a with
  | Fin x => Fin (inject_Z (Qfloor x))
  | NaN => NaN
  end.

Definition of_Z (z : Z) : Number := Fin (inject_Z z).

(** The rationals that are binary64 values. *)
Definition is_binary64 (q : Q) : Prop := (b64 q == q)%Q.

(** [ToUint8Clamp], the conversion applied by a store into a
    [Uint8ClampedArray]: [NaN] becomes 0, the value is clamped to
    [0, 255] and then rounded, a tie going to the even neighbour. *)
Definition ToUint8Clamp (a : Number) : Z :=
  match a with
  | NaN => 0
  | Fin x =>
      let clamped :=
        if Qle_bool x 0 then 0%Q
        else if Qle_bool 255 x then 255%Q else x in
      round_half_even clamped
  end.

End JS.

Declare Scope js_scope.
Delimit Scope js_scope with js.
Bind Scope js_scope with JS.Number.
Infix "-" := JS.sub : js_scope.
Infix "+" := JS.add : js_scope.
Infix "*" := JS.mul : js_scope.

#[global] Instance Q_eq_dec : EqDecision Q.
Proof. solve_decision. Defined.

(** The literals of the source. *)
Definition n0 : JS.Number := JS.of_Z 0.
Definition n128 : JS.Number := JS.of_Z 128.
Definition n255 : JS.Number := JS.of_Z 255.
Definition n1_5 : JS.Number := JS.Fin (3 # 2).

(** ** The Uint8ClampedArray [imageData.data] *)

Abbreviation Uint8ClampedArray := (list Z) (only parsing).

(** [data[i]] read as a Number: an index past the end reads [undefined],
    which arithmetic converts to [NaN]. *)
Definition load (data : Uint8ClampedArray) (i : nat) : JS.Number :=
  match data !! i with
  | Some v => JS.of_Z v
  | None => JS.NaN
  end.

(** [data[i] = x]: the value is converted by [ToUint8Clamp]; a typed array
    ignores a store past its end. *)
Definition store (data : Uint8ClampedArray) (i : nat) (x : JS.Number)
  : Uint8ClampedArray :=
  <[i := JS.ToUint8Clamp x]> data.

(** The body of the loop of [applyXRayEffect], statement by statement. *)
Definition xray_body (i : nat) (data : Uint8ClampedArray) : Uint8ClampedArray :=
  (* Invert colors for X-ray effect *)
  let data := store data i (n255 - load data i)%js in
  let data := store data (i + 1) (n255 - load data (i + 1))%js in
  let data := store data (i + 2) (n255 - load data (i + 2))%js in
  (* Enhance contrast for better visibility *)
  let data := store data i
    (JS.Math_max n0 (JS.Math_min n255 ((load data i - n128) * n1_5 + n128)))%js in
  let data := store data (i + 1)
    (JS.Math_max n0 (JS.Math_min n255 ((load data (i + 1) - n128) * n1_5 + n128)))%js in
  let data := store data (i + 2)
    (JS.Math_max n0 (JS.Math_min n255 ((load data (i + 2) - n128) * n1_5 + n128)))%js in
  data.

(** [for (let i = 0; i < data.length; i += 4) { body }], with the number of
    iterations bounded by [fuel]; [None] when the fuel runs out before the
    loop condition fails. *)
Fixpoint xray_loop (fuel : nat) (i : nat) (data : Uint8ClampedArray)
  : option Uint8ClampedArray :=
  if (i <? length data)%nat then
    match fuel with
    | O => None
    | S fuel' => xray_loop fuel' (i + 4) (xray_body i data)
    end
  else Some data.

(** The loop as [applyXRayEffect] runs it: from index 0, on the whole
    array.  One unit of fuel per byte is more than the loop can use. *)
Definition xray_pixels (data : Uint8ClampedArray) : option Uint8ClampedArray :=
  xray_loop (length data) 0 data.

(** A statement of the shape [data[k] = g(data[k])]. *)
Definition assign (g : JS.Number -> JS.Number) (k : nat) (data : Uint8ClampedArray)
  : Uint8ClampedArray :=
  store data k (g (load data k)).

(** The right-hand sides of the two groups of statements. *)
Definition js_invert (x : JS.Number) : JS.Number := (n255 - x)%js.

Definition js_stretch (x : JS.Number) : JS.Number := ((x - n128) * n1_5 + n128)%js.

Definition js_clamp (x : JS.Number) : JS.Number :=
  JS.Math_max n0 (JS.Math_min n255 x).

(** What the two stores of the body do to one channel byte [v]: the
    inversion is stored (and so converted) first, the contrast stretch reads
    the stored byte back. *)
Definition invert (v : Z) : Z := JS.ToUint8Clamp (js_invert (JS.of_Z v)).

Definition contrast (x : Z) : Z :=
  JS.ToUint8Clamp (js_clamp (js_stretch (JS.of_Z x))).

Definition channel (v : Z) : Z := contrast (invert v).

(** The Number that the code computes for the channel byte [v] before
    [Math.min] and [Math.max] clamp it. *)
Definition raw_value (v : Z) : JS.Number := js_stretch (JS.of_Z (invert v)).

(** The formula of the specification, in exact rational arithmetic:
    [(255 - v - 128) * 1.5 + 128] and its clamp to [0, 255]. *)
Definition spec_raw (v : Z) : Q :=
  ((255 - inject_Z v - 128) * (3 # 2) + 128)%Q.

Definition spec_clamp (q : Q) : Q :=
  if Qle_bool q 0 then 0%Q else if Qle_bool 255 q then 255%Q else q.

Definition spec_channel (v : Z) : Q := spec_clamp (spec_raw v).

(** A check of all the 256 byte values. *)
Definition all_bytes (P : Z -> bool) : bool :=
  forallb P (map Z.of_nat (seq 0 256)).

(** ** The objects of [applyXRayEffect]

    [applyXRayEffect] works on three objects: the [Image] that decodes the
    source, the canvas it is drawn on, and the [ImageData] that
    [getImageData] copies out of the canvas.  They live in a store, so that
    which of them the loop writes to is part of the model. *)

Record Bitmap : Type := mkBitmap {
  width : nat;
  height : nat;
  pixels : Uint8ClampedArray   (* RGBA, row-major *)
}.

(** A data URL, by its MIME type and by what the platform's codec decodes
    it to: [None] when it is not a decodable image.  The codec itself is an
    external collaborator. *)
Record DataURL : Type := mkDataURL {
  mime : string;
  decoded : option Bitmap
}.

Inductive object : Type :=
  | HTMLImageElement (b : option Bitmap)   (* [None] until it has loaded *)
  | HTMLCanvasElement (b : Bitmap)
  | ImageData (b : Bitmap).

Abbreviation loc := positive (only parsing).
Abbreviation heap := (gmap positive object) (only parsing).

Inductive DOMException : Type :=
  | IndexSizeError.

(** How a piece of straight-line code over the store ends. *)
Inductive completion (A : Type) : Type :=
  | Normal (a : A) (h : heap)
  | Throw (e : DOMException) (h : heap)
  | Stuck              (* a reference to an object of the wrong kind *)
  | OutOfFuel.
Arguments Normal {A} a h.
Arguments Throw {A} e h.
Arguments Stuck {A}.
Arguments OutOfFuel {A}.

Definition M (A : Type) : Type := heap -> completion A.

Definition ret {A} (a : A) : M A := fun h => Normal a h.

Definition bind {A B} (c : M A) (k : A -> M B) : M B :=
  fun h =>
    match c h with
    | Normal a h' => k a h'
    | Throw e h' => Throw e h'
    | Stuck => Stuck
    | OutOfFuel => OutOfFuel
    end.

Notation "'let*' x ':=' c 'in' k" := (bind c (fun x => k))
  (at level 10, x name, c at level 100, k at level 200).
Notation "c ';;' k" := (bind c (fun _ => k))
  (at level 100, k at level 200, right associativity).

Definition throw {A} (e : DOMException) : M A := fun h => Throw e h.

Definition alloc (o : object) : M loc :=
  fun h => let l := fresh (dom h) in Normal l (<[l := o]> h).

Definition blank (w h : nat) : Bitmap :=
  mkBitmap w h (replicate (4 * w * h) 0).

(** [document.createElement('canvas')]: 300 by 150, transparent black. *)
Definition createCanvas : M loc := alloc (HTMLCanvasElement (blank 300 150)).

(** [new Image()] *)
Definition newImage : M loc := alloc (HTMLImageElement None).

Definition canvasBitmap (c : loc) : M Bitmap :=
  fun h => match h !! c with
           | Some (HTMLCanvasElement b) => Normal b h
           | _ => Stuck
           end.

Definition imageBitmap (img : loc) : M Bitmap :=
  fun h => match h !! img with
           | Some (HTMLImageElement (Some b)) => Normal b h
           | _ => Stuck
           end.

Definition imageDataBitmap (d : loc) : M Bitmap :=
  fun h => match h !! d with
           | Some (ImageData b) => Normal b h
           | _ => Stuck
           end.

Definition update (l : loc) (o : object) : M unit :=
  fun h => Normal tt (<[l := o]> h).

(** [canvas.width = w] and [canvas.height = h]: the bitmap is replaced by a
    cleared one of the new size. *)
Definition setWidth (c : loc) (w : nat) : M unit :=
  let* b := canvasBitmap c in
  update c (HTMLCanvasElement (blank w (height b))).

Definition setHeight (c : loc) (h : nat) : M unit :=
  let* b := canvasBitmap c in
  update c (HTMLCanvasElement (blank (width b) h)).

(** *** Premultiplied alpha

    The bitmap of a canvas keeps a pixel premultiplied: its alpha byte as
    it is, and each colour byte multiplied by alpha / 255.  An image and an
    [ImageData] have their colours straight.  [drawImage] and
    [putImageData] convert to the premultiplied form; [getImageData] and
    the PNG encoder of [toDataURL] convert back, each to the nearest byte.
    An opaque pixel comes back as it was, a pixel that is not opaque may
    come back with other colours, and a pixel of alpha 0 comes back as
    transparent black.  (For a pixel that is not opaque the standard leaves
    the conversion to the platform; to the nearest byte is what the
    browsers compute.  [premultiply] has no tie; in [unpremultiply] a tie
    goes up.) *)

(** [c * alpha / 255], to the nearest byte. *)
Definition premultiply (alpha c : Z) : Z := (2 * c * alpha + 255) / 510.

(** [c * 255 / alpha], to the nearest byte and at most 255. *)
Definition unpremultiply (alpha c : Z) : Z :=
  if alpha =? 0 then 0 else Z.min 255 ((510 * c + alpha) / (2 * alpha)).

(** The alpha byte of the pixel that byte [k] belongs to. *)
Definition alpha_at (data : Uint8ClampedArray) (k : nat) : Z :=
  default 0 (data !! (4 * (k / 4) + 3)%nat).

(** The colour bytes converted by [f], given the alpha of their pixel; the
    alpha bytes as they are. *)
Definition convert (f : Z -> Z -> Z) (data : Uint8ClampedArray) : Uint8ClampedArray :=
  imap (fun k c => if decide (k mod 4 = 3)%nat then c else f (alpha_at data k) c)
       data.

Definition premultiplied : Uint8ClampedArray -> Uint8ClampedArray :=
  convert premultiply.

Definition straight : Uint8ClampedArray -> Uint8ClampedArray :=
  convert unpremultiply.

(** Every pixel has alpha 255. *)
Definition opaque (data : Uint8ClampedArray) : Prop :=
  ∀ k, (k < length data)%nat → alpha_at data k = 255.

(** Every element is a byte. *)
Definition bytes (data : Uint8ClampedArray) : Prop :=
  Forall (fun v => 0 ≤ v ≤ 255) data.

(** "source-over", the default compositing: the premultiplied source [s]
    of alpha [alpha] on top of the premultiplied byte [old]. *)
Definition source_over (alpha s old : Z) : Z :=
  s + (2 * old * (255 - alpha) + 255) / 510.

(** The byte [k] of a canvas [cw] wide after an image has been drawn at
    the origin: where the image covers the canvas, its pixel,
    premultiplied, over the old pixel; the old byte elsewhere. *)
Definition drawn_byte (cw : nat) (img : Bitmap) (k : nat) (old : Z) : Z :=
  let x := ((k / 4) mod cw)%nat in
  let y := ((k / 4) / cw)%nat in
  if decide (x < width img ∧ y < height img)%nat
  then
    let p := (4 * (y * width img + x))%nat in
    let alpha := default 0 (pixels img !! (p + 3)%nat) in
    let c := default 0 (pixels img !! (p + k mod 4)%nat) in
    source_over alpha
      (if decide (k mod 4 = 3)%nat then c else premultiply alpha c) old
  else old.

(** [ctx.drawImage(img, 0, 0)]: an image of zero width or height is not
    drawn. *)
Definition drawImage (c img : loc) : M unit :=
  let* ib := imageBitmap img in
  let* cb := canvasBitmap c in
  if decide (width ib = 0 ∨ height ib = 0)%nat then ret tt
  else update c (HTMLCanvasElement
         (mkBitmap (width cb) (height cb)
                   (imap (drawn_byte (width cb) ib) (pixels cb)))).

(** The premultiplied bytes of a cleared canvas of the size of [b] after
    [b] has been drawn on it. *)
Definition drawn (b : Bitmap) : Uint8ClampedArray :=
  imap (drawn_byte (width b) b) (replicate (4 * width b * height b) 0).

(** A bitmap has four bytes for each of its pixels. *)
Definition well_formed (b : Bitmap) : Prop :=
  length (pixels b) = (4 * width b * height b)%nat.

(** [ctx.getImageData(0, 0, sw, sh)] for the whole canvas: a new
    [ImageData] holding a copy of the pixels, converted to straight
    colours; a zero [sw] or [sh] throws [IndexSizeError]. *)
Definition getImageData (c : loc) (sw sh : nat) : M loc :=
  if decide (sw = 0 ∨ sh = 0)%nat then throw IndexSizeError
  else
    let* cb := canvasBitmap c in
    alloc (ImageData (mkBitmap sw sh (straight (pixels cb)))).

(** The loop, run on [imageData.data]: the array of the [ImageData]
    object is the one that is written. *)
Definition xrayInPlace (d : loc) : M unit :=
  let* b := imageDataBitmap d in
  match xray_pixels (pixels b) with
  | Some data' => update d (ImageData (mkBitmap (width b) (height b) data'))
  | None => fun _ => OutOfFuel
  end.

(** [ctx.putImageData(imageData, 0, 0)]: the pixels of the canvas are
    replaced (nothing is composited) by those of the [ImageData],
    premultiplied. *)
Definition putImageData (c d : loc) : M unit :=
  let* b := imageDataBitmap d in
  let* cb := canvasBitmap c in
  update c (HTMLCanvasElement
    (mkBitmap (width cb) (height cb) (premultiplied (pixels b)))).

(** [canvas.toDataURL('image/png')]: the encoder takes the pixels of the
    canvas back to straight colours; PNG itself is lossless, so the URL
    decodes to those. *)
Definition toDataURL (c : loc) : M DataURL :=
  let* cb := canvasBitmap c in
  ret (mkDataURL "image/png"
         (Some (mkBitmap (width cb) (height cb) (straight (pixels cb))))).

(** The [img.onload] callback of [applyXRayEffect]; its result is what
    [resolve] is called with. *)
Definition onload (canvas img : loc) : M DataURL :=
  let* ib := imageBitmap img in
  setWidth canvas (width ib) ;;
  setHeight canvas (height ib) ;;
  (* Draw the original image *)
  drawImage canvas img ;;
  (* Get image data *)
  let* cb := canvasBitmap canvas in
  let* imageData := getImageData canvas (width cb) (height cb) in
  (* Apply X-ray effect (invert colors and adjust contrast) *)
  xrayInPlace imageData ;;
  (* Put the modified image data back *)
  putImageData canvas imageData ;;
  (* Convert to data URL *)
  toDataURL canvas.

(** The state of the promise that [applyXRayEffect] returns, once the
    event loop has nothing left to run for it.  The executor never calls
    [reject] and sets no [onerror]: when the source does not decode, or
    when [onload] throws, the promise stays pending. *)
Inductive promise (A : Type) : Type :=
  | Resolved (a : A) (h : heap)
  | PendingForever (h : heap)
  | Unfinished.
Arguments Resolved {A} a h.
Arguments PendingForever {A} h.
Arguments Unfinished {A}.

Definition applyXRayEffect (imageSrc : DataURL) (h : heap) : promise DataURL :=
  match (let* canvas := createCanvas in
         let* img := newImage in
         ret (canvas, img)) h with
  | Normal (canvas, img) h1 =>
      (* img.src = imageSrc *)
      match decoded imageSrc with
      | None => PendingForever h1
      | Some b =>
          match onload canvas img (<[img := HTMLImageElement (Some b)]> h1) with
          | Normal url h2 => Resolved url h2
          | Throw _ h2 => PendingForever h2
          | Stuck | OutOfFuel => Unfinished
          end
      end
  | _ => Unfinished
  end.

(** ** The mock analysis *)

Record MockResult : Type := mkMockResult {
  hasPneumonia : bool;
  confidence : JS.Number;
  findings : list string
}.

(** [Math.floor(Math.random() * 40) + 60], for the value [r] that
    [Math.random()] returned. *)
Definition mock_confidence (r : JS.Number) : JS.Number :=
  (JS.Math_floor (r * JS.of_Z 40) + JS.of_Z 60)%js.

(** [mockResult] of [processImage], for the two values [r1] and [r2] that
    its two calls of [Math.random()] returned. *)
Definition mockResult (r1 r2 : JS.Number) : MockResult :=
  {| hasPneumonia := JS.gt r1 (JS.Fin (1 # 2));
     confidence := mock_confidence r2;
     findings := ["Lung fields appear clear";
                  "No obvious consolidation detected";
                  "Pleural spaces are normal"]%string |}.

(** [Math.random()] returns a binary64 value [r] with [0 <= r < 1]. *)
Definition random_value (r : Q) : Prop :=
  JS.is_binary64 r ∧ (0 <= r)%Q ∧ (r < 1)%Q.

(** ** The state of [XRayProcessor] and its callbacks *)

(** A file of the file input, by its name and by the data URL that
    [readAsDataURL] produces for it. *)
Record File : Type := mkFile {
  name : string;
  contents : DataURL
}.

(** The four [useState] cells and the value of the file input, and the
    callbacks that are waiting in the event loop: file readers that have
    not fired [onload], calls of [applyXRayEffect] that [processImage]
    awaits (by their argument), and pending [setTimeout] callbacks. *)
Record State : Type := mkState {
  selectedImage : option DataURL;
  processedImage : option DataURL;
  isProcessing : bool;
  analysisResult : option MockResult;
  fileInputValue : string;
  readers : list DataURL;
  awaited : list DataURL;
  timers : nat
}.

Definition init : State :=
  mkState None None false None "" [] [] 0.

(** [handleImageUpload]: with a file, a [FileReader] is started. *)
Definition handleImageUpload (file : option File) (s : State) : State :=
  match file with
  | Some f =>
      mkState (selectedImage s) (processedImage s) (isProcessing s)
              (analysisResult s) (name f)
              (readers s ++ [contents f]) (awaited s) (timers s)
  | None => s
  end.

(** [reader.onload], with [result] for [e.target.result]. *)
Definition reader_onload (result : DataURL) (s : State) : State :=
  mkState (Some result) None (isProcessing s) None (fileInputValue s)
          (readers s) (awaited s) (timers s).

(** [processImage] up to its [await].  The promise of [applyXRayEffect] is
    never rejected and nothing before the [await] throws, so the [catch]
    branch is not taken. *)
Definition processImage (s : State) : State :=
  match selectedImage s with
  | None => s
  | Some src =>
      mkState (selectedImage s) (processedImage s) true (analysisResult s)
              (fileInputValue s) (readers s) (awaited s ++ [src]) (timers s)
  end.

(** [processImage] after its [await], with the value of the promise: the
    processed image is set and the mock analysis is scheduled. *)
Definition processImage_resume (xrayImage : DataURL) (s : State) : State :=
  mkState (selectedImage s) (Some xrayImage) (isProcessing s)
          (analysisResult s) (fileInputValue s)
          (readers s) (awaited s) (S (timers s)).

(** The callback given to [setTimeout]. *)
Definition timeout_callback (r1 r2 : JS.Number) (s : State) : State :=
  mkState (selectedImage s) (processedImage s) false
          (Some (mockResult r1 r2)) (fileInputValue s)
          (readers s) (awaited s) (timers s).

Definition resetProcessor (s : State) : State :=
  mkState None None (isProcessing s) None ""
          (readers s) (awaited s) (timers s).

(** The value that the promise of [applyXRayEffect(src)] resolves with, if
    it resolves.  The objects of the call are its own, so it is run on an
    empty store. *)
Definition xrayImage_of (src : DataURL) : option DataURL :=
  match applyXRayEffect src ∅ with
  | Resolved url _ => Some url
  | _ => None
  end.

(** What the event loop can run next. *)
Inductive event : Type :=
  | Change (file : option File)      (* the file input changes *)
  | ReaderLoad (k : nat)             (* the [k]-th pending reader fires [onload] *)
  | ClickProcess                     (* the button "Process Image" *)
  | XrayResolved (k : nat)           (* the [k]-th awaited promise resolves *)
  | Timeout (r1 r2 : Q)              (* a timer fires; [Math.random()] gives [r1], [r2] *)
  | ClickReset.                      (* the button "Reset" *)

Definition with_readers (l : list DataURL) (s : State) : State :=
  mkState (selectedImage s) (processedImage s) (isProcessing s)
          (analysisResult s) (fileInputValue s) l (awaited s) (timers s).

Definition with_awaited (l : list DataURL) (s : State) : State :=
  mkState (selectedImage s) (processedImage s) (isProcessing s)
          (analysisResult s) (fileInputValue s) (readers s) l (timers s).

Definition with_timers (n : nat) (s : State) : State :=
  mkState (selectedImage s) (processedImage s) (isProcessing s)
          (analysisResult s) (fileInputValue s) (readers s) (awaited s) n.

(** One callback; [None] when the event cannot happen in [s]: the two
    buttons are rendered only with a selected image, "Process Image" is
    disabled while [isProcessing], and a completion needs its pending
    work. *)
Definition step (e : event) (s : State) : option State :=
  match e with
  | Change file => Some (handleImageUpload file s)
  | ReaderLoad k =>
      result ← readers s !! k;
      Some (reader_onload result (with_readers (delete k (readers s)) s))
  | ClickProcess =>
      if isProcessing s then None
      else _ ← selectedImage s; Some (processImage s)
  | XrayResolved k =>
      src ← awaited s !! k;
      xrayImage ← xrayImage_of src;
      Some (processImage_resume xrayImage
              (with_awaited (delete k (awaited s)) s))
  | Timeout r1 r2 =>
      match timers s with
      | O => None
      | S n => Some (timeout_callback (JS.Fin r1) (JS.Fin r2) (with_timers n s))
      end
  | ClickReset =>
      _ ← selectedImage s; Some (resetProcessor s)
  end.

Fixpoint run (es : list event) (s : State) : option State :=
  match es with
  | [] => Some s
  | e :: es' => s' ← step e s; run es' s'
  end.

(** No call of [processImage] is in flight. *)
Definition idle (s : State) : Prop := awaited s = [] ∧ timers s = 0%nat.

(** An upload or a reset that happens while a call of [processImage] is in
    flight. *)
Definition interrupts (e : event) (s : State) : Prop :=
  match e with
  | ReaderLoad _ | ClickReset => ¬ idle s
  | _ => False
  end.

(** A run in which no upload and no reset interrupts [processImage]. *)
Fixpoint uninterrupted (es : list event) (s : State) : Prop :=
  match es with
  | [] => True
  | e :: es' =>
      ¬ interrupts e s ∧
      match step e s with
      | Some s' => uninterrupted es' s'
      | None => True
      end
  end.

(** The processed image that belongs to the selected one. *)
Definition current (s : State) : option DataURL :=
  src ← selectedImage s; xrayImage_of src.

(** What holds of the work in flight as long as no upload and no reset
    interrupts it: an awaited call is for the selected image, and a timer
    was set after the processed image of the selected image. *)
Definition in_flight_current (s : State) : Prop :=
  (∀ src, src ∈ awaited s → selectedImage s = Some src) ∧
  (timers s ≠ 0%nat →
     is_Some (processedImage s) ∧ processedImage s = current s).

(** The results on display are those of the selected image: a processed
    image is the transform of the selected one, and an analysis comes with
    such a processed image. *)
Definition results_current (s : State) : Prop :=
  (is_Some (processedImage s) → processedImage s = current s) ∧
  (is_Some (analysisResult s) →
     is_Some (processedImage s) ∧ processedImage s = current s).

(** ** Sample inputs *)

Definition sample_bitmap : Bitmap :=
  mkBitmap 2 1 [0; 128; 255; 77; 126; 100; 168; 200].

Definition sample_src : DataURL := mkDataURL "image/jpeg" (Some sample_bitmap).

(** The same picture with both pixels opaque. *)
Definition opaque_bitmap : Bitmap :=
  mkBitmap 2 1 [0; 128; 255; 255; 126; 100; 168; 255].

Definition opaque_src : DataURL := mkDataURL "image/png" (Some opaque_bitmap).

Definition fileA : File :=
  mkFile "a.png" (mkDataURL "image/png" (Some (mkBitmap 1 1 [100; 120; 140; 255]))).

Definition fileB : File :=
  mkFile "b.png" (mkDataURL "image/png" (Some (mkBitmap 1 1 [200; 100; 50; 255]))).

(** A second file is chosen and "Process Image" is clicked before its
    reader has fired. *)
Definition late_reader : list event :=
  [Change (Some fileA); ReaderLoad 0; Change (Some fileB); ClickProcess;
   ReaderLoad 0; XrayResolved 0; Timeout (1 # 4) (3 # 4)].

(** "Reset" is activated before the timer of the analysis fires. *)
Definition reset_before_timer : list event :=
  [Change (Some fileA); ReaderLoad 0; ClickProcess; XrayResolved 0;
   ClickReset; Timeout (1 # 4) (3 # 4)].

(** One image, processed to the end. *)
Definition one_image : list event :=
  [Change (Some fileA); ReaderLoad 0; ClickProcess; XrayResolved 0;
   Timeout (1 # 4) (3 # 4)].

(** ** The loop as a map, and the calls in flight *)

(** The index-wise map that the loop amounts to. *)
Definition xray_map (data : Uint8ClampedArray) : Uint8ClampedArray :=
  imap (fun j v => if decide (j mod 4 ≠ 3)%nat then channel v else v) data.

(** A source that the platform decodes to an image with pixels. *)
Definition usable (src : DataURL) : Prop :=
  ∃ b, decoded src = Some b ∧ width b ≠ 0%nat ∧ height b ≠ 0%nat.

(** The number of calls of [processImage] in flight. *)
Definition in_flight (s : State) : nat := (length (awaited s) + timers s)%nat.

(** At most one call is in flight, and [isProcessing] says whether one
    is. *)
Definition single_flight (s : State) : Prop :=
  (in_flight s ≤ 1)%nat ∧ (isProcessing s = true ↔ in_flight s = 1%nat).

(** A call in flight whose promise never settles. *)
Definition hung (s : State) : Prop :=
  isProcessing s = true ∧ timers s = 0%nat ∧
  ∀ src, src ∈ awaited s → xrayImage_of src = None.

(** A file that decodes to an image without pixels. *)
Definition fileZ : File :=
  mkFile "z.svg" (mkDataURL "image/svg+xml" (Some (mkBitmap 0 0 []))).

(** ** [AdvancedXRayProcessor] *)

(** [Math.round]: the nearest integer, a tie going up. *)
Definition Math_round (a : JS.Number) : JS.Number :=
  match a with
  | JS.Fin x => JS.Fin (inject_Z (Qfloor (x + (1 # 2))))
  | JS.NaN => JS.NaN
  end.

(** A decimal literal of the source: the binary64 value nearest to it. *)
Definition literal (q : Q) : JS.Number := JS.Fin (JS.b64 q).

Module Advanced.

Inductive Tab : Type := TabAnalysis | TabComparison | TabOptimization.

(** [Math.floor(Math.random() * 40) + 30] *)
Definition mock_probability (r : JS.Number) : JS.Number :=
  (JS.Math_floor (r * JS.of_Z 40) + JS.of_Z 30)%js.

(** [Math.random() * 0.4 + 0.6] *)
Definition mock_quality_score (r : JS.Number) : JS.Number :=
  (r * literal (2 # 5) + literal (3 # 5))%js.

(** [Math.random() * 0.5 + 0.1] *)
Definition mock_processing_time (r : JS.Number) : JS.Number :=
  (r * literal (1 # 2) + literal (1 # 10))%js.

(** [Math.round(imageQuality.quality_score * 100)], the score on display. *)
Definition quality_percent (score : JS.Number) : JS.Number :=
  Math_round (score * JS.of_Z 100)%js.

Record Quality : Type := mkQuality {
  is_valid : bool;
  issues : list string;
  quality_score : JS.Number;
  recommendations : list string
}.

(** [mockQuality] of [analyzeImageQuality], for the value [r] of
    [Math.random()]. *)
Definition mockQuality (r : JS.Number) : Quality :=
  {| is_valid := true;
     issues := [];
     quality_score := mock_quality_score r;
     recommendations :=
       ["Image resolution is adequate for analysis";
        "Contrast levels are within acceptable range";
        "No significant blur detected"]%string |}.

Record Probabilities : Type := mkProbabilities {
  Normal : JS.Number;
  Pneumonia : JS.Number
}.

Record MockResult : Type := mkMockResult {
  prediction : string;
  confidence : JS.Number;
  probabilities : Probabilities;
  processing_time : JS.Number;
  model_used : string
}.

(** [mockResult] of the fallback of [processImage], for the five values of
    [Math.random()] in the order of the object literal. *)
Definition mockResult (selectedModel : string) (r1 r2 r3 r4 r5 : JS.Number)
  : MockResult :=
  {| prediction := if JS.gt r1 (literal (1 # 2)) then "Pneumonia" else "Normal";
     confidence := mock_confidence r2;
     probabilities := {| Normal := mock_probability r3;
                         Pneumonia := mock_probability r4 |};
     processing_time := mock_processing_time r5;
     model_used := selectedModel |}.

Inductive Analysis : Type :=
  | BackendAnalysis (analysis : string)    (* [data.analysis] *)
  | MockAnalysis (m : MockResult).

Record ModelRun : Type := mkModelRun {
  run_prediction : string;
  run_confidence : JS.Number;
  run_processing_time : JS.Number
}.

(** [mockComparison] of [compareModels]. *)
Definition mockComparison : list (string * ModelRun) :=
  [("vgg16", mkModelRun "Normal" (literal (785 # 10)) (literal (45 # 100)));
   ("resnet50", mkModelRun "Pneumonia" (literal (823 # 10)) (literal (38 # 100)));
   ("mobilenetv2", mkModelRun "Normal" (literal (751 # 10)) (literal (15 # 100)));
   ("efficientnet", mkModelRun "Pneumonia" (literal (897 # 10)) (literal (25 # 100)))]%string.

Inductive Comparison : Type :=
  | BackendComparison (comparison : string)   (* [data.comparison] *)
  | MockComparison (m : list (string * ModelRun)).

Record Metrics : Type := mkMetrics {
  size_mb : JS.Number;
  inference_time_ms : JS.Number;
  accuracy : JS.Number
}.

Record MockReport : Type := mkMockReport {
  model_name : string;
  model_info : Metrics;
  target_size_mb : JS.Number;
  best_strategy : string;
  pruning : Metrics;
  quantization : Metrics
}.

(** [mockReport] of [generateOptimizationReport]. *)
Definition mockReport (selectedModel : string) : MockReport :=
  {| model_name := selectedModel;
     model_info := mkMetrics (JS.of_Z 100) (JS.of_Z 250) (literal (92 # 100));
     target_size_mb := JS.of_Z 10;
     best_strategy := "quantization";
     pruning := mkMetrics (JS.of_Z 25) (JS.of_Z 180) (literal (91 # 100));
     quantization := mkMetrics (literal (85 # 10)) (JS.of_Z 150) (literal (90 # 100)) |}.

Inductive Report : Type :=
  | BackendReport (report : string)   (* [data.report] *)
  | FallbackReport (m : MockReport).

(** The eleven [useState] cells and the value of the file input. *)
Record Cells : Type := mkCells {
  selectedImage : option DataURL;
  processedImage : option DataURL;
  heatmapImage : option string;
  isProcessing : bool;
  analysisResult : option Analysis;
  selectedModel : string;
  availableModels : list string;
  modelComparison : option Comparison;
  optimizationReport : option Report;
  activeTab : Tab;
  imageQuality : option Quality;
  fileInputValue : string
}.

Definition setSelectedImage v c :=
  mkCells v (processedImage c) (heatmapImage c) (isProcessing c)
    (analysisResult c) (selectedModel c) (availableModels c) (modelComparison c)
    (optimizationReport c) (activeTab c) (imageQuality c) (fileInputValue c).
Definition setProcessedImage v c :=
  mkCells (selectedImage c) v (heatmapImage c) (isProcessing c)
    (analysisResult c) (selectedModel c) (availableModels c) (modelComparison c)
    (optimizationReport c) (activeTab c) (imageQuality c) (fileInputValue c).
Definition setHeatmapImage v c :=
  mkCells (selectedImage c) (processedImage c) v (isProcessing c)
    (analysisResult c) (selectedModel c) (availableModels c) (modelComparison c)
    (optimizationReport c) (activeTab c) (imageQuality c) (fileInputValue c).
Definition setIsProcessing v c :=
  mkCells (selectedImage c) (processedImage c) (heatmapImage c) v
    (analysisResult c) (selectedModel c) (availableModels c) (modelComparison c)
    (optimizationReport c) (activeTab c) (imageQuality c) (fileInputValue c).
Definition setAnalysisResult v c :=
  mkCells (selectedImage c) (processedImage c) (heatmapImage c) (isProcessing c)
    v (selectedModel c) (availableModels c) (modelComparison c)
    (optimizationReport c) (activeTab c) (imageQuality c) (fileInputValue c).
Definition setSelectedModel v c :=
  mkCells (selectedImage c) (processedImage c) (heatmapImage c) (isProcessing c)
    (analysisResult c) v (availableModels c) (modelComparison c)
    (optimizationReport c) (activeTab c) (imageQuality c) (fileInputValue c).
Definition setAvailableModels v c :=
  mkCells (selectedImage c) (processedImage c) (heatmapImage c) (isProcessing c)
    (analysisResult c) (selectedModel c) v (modelComparison c)
    (optimizationReport c) (activeTab c) (imageQuality c) (fileInputValue c).
Definition setModelComparison v c :=
  mkCells (selectedImage c) (processedImage c) (heatmapImage c) (isProcessing c)
    (analysisResult c) (selectedModel c) (availableModels c) v
    (optimizationReport c) (activeTab c) (imageQuality c) (fileInputValue c).
Definition setOptimizationReport v c :=
  mkCells (selectedImage c) (processedImage c) (heatmapImage c) (isProcessing c)
    (analysisResult c) (selectedModel c) (availableModels c) (modelComparison c)
    v (activeTab c) (imageQuality c) (fileInputValue c).
Definition setActiveTab v c :=
  mkCells (selectedImage c) (processedImage c) (heatmapImage c) (isProcessing c)
    (analysisResult c) (selectedModel c) (availableModels c) (modelComparison c)
    (optimizationReport c) v (imageQuality c) (fileInputValue c).
Definition setImageQuality v c :=
  mkCells (selectedImage c) (processedImage c) (heatmapImage c) (isProcessing c)
    (analysisResult c) (selectedModel c) (availableModels c) (modelComparison c)
    (optimizationReport c) (activeTab c) v (fileInputValue c).
Definition setFileInputValue v c :=
  mkCells (selectedImage c) (processedImage c) (heatmapImage c) (isProcessing c)
    (analysisResult c) (selectedModel c) (availableModels c) (modelComparison c)
    (optimizationReport c) (activeTab c) (imageQuality c) v.

(** Setters applied in the order of the source. *)
Notation "c '|>' f" := (f c) (at level 45, left associativity, only parsing).

Definition initial : Cells :=
  mkCells None None None false None "efficientnet" [] None None
          TabAnalysis None "".

(** [reader.onload] of [handleImageUpload]; [analyzeImageQuality] has no
    [await] and runs to its end inside the callback. *)
Definition reader_onload (result : DataURL) (r : JS.Number) (c : Cells) : Cells :=
  c |> setSelectedImage (Some result)
    |> setProcessedImage None
    |> setAnalysisResult None
    |> setHeatmapImage None
    |> setModelComparison None
    |> setImageQuality (Some (mockQuality r)).

(** [processImage] up to its first [await]. *)
Definition processImage (c : Cells) : Cells :=
  match selectedImage c with
  | None => c
  | Some _ =>
      c |> setIsProcessing true |> setAnalysisResult None |> setHeatmapImage None
  end.

(** [processImage] when the backend answered with [data.success]; the
    closure still has the image that was selected at the click. *)
Definition processImage_success (analysis : string) (heatmap : option string)
    (selectedImage : DataURL) (c : Cells) : Cells :=
  c |> setAnalysisResult (Some (BackendAnalysis analysis))
    |> setHeatmapImage heatmap
    |> setProcessedImage (Some selectedImage).

(** The callback that the [catch] of [processImage] gives to
    [setTimeout]. *)
Definition processImage_fallback (selectedImage : DataURL) (selectedModel : string)
    (r1 r2 r3 r4 r5 : JS.Number) (c : Cells) : Cells :=
  c |> setAnalysisResult (Some (MockAnalysis (mockResult selectedModel r1 r2 r3 r4 r5)))
    |> setHeatmapImage (Some "data:image/png;base64,iVBORw0KGgoAAAANSUhEUgAAAAEAAAABCAYAAAAfFcSJAAAADUlEQVR42mNkYPhfDwAChwGA60e6kgAAAABJRU5ErkJggg=="%string)
    |> setProcessedImage (Some selectedImage)
    |> setIsProcessing false.

(** [compareModels] up to its first [await]. *)
Definition compareModels (c : Cells) : Cells :=
  match selectedImage c with
  | None => c
  | Some _ => c |> setIsProcessing true |> setModelComparison None
  end.

Definition compareModels_success (comparison : string) (c : Cells) : Cells :=
  c |> setModelComparison (Some (BackendComparison comparison))
    |> setActiveTab TabComparison.

(** The [catch] of [compareModels]. *)
Definition compareModels_fallback (c : Cells) : Cells :=
  c |> setModelComparison (Some (MockComparison mockComparison))
    |> setActiveTab TabComparison
    |> setIsProcessing false.

Definition generateOptimizationReport_success (report : string) (c : Cells) : Cells :=
  c |> setOptimizationReport (Some (BackendReport report))
    |> setActiveTab TabOptimization.

(** The [catch] of [generateOptimizationReport]. *)
Definition generateOptimizationReport_fallback (selectedModel : string) (c : Cells)
  : Cells :=
  c |> setOptimizationReport (Some (FallbackReport (mockReport selectedModel)))
    |> setActiveTab TabOptimization.

Definition resetProcessor (c : Cells) : Cells :=
  c |> setSelectedImage None
    |> setProcessedImage None
    |> setAnalysisResult None
    |> setHeatmapImage None
    |> setModelComparison None
    |> setOptimizationReport None
    |> setImageQuality None
    |> setFileInputValue "".

(** The cells and the work that is waiting in the event loop: readers,
    calls of [processImage] awaiting the backend and their fallback timers
    (with the image and the model of their closure), calls of
    [compareModels], calls of [generateOptimizationReport] (with the model
    of their closure), and [fetchAvailableModels] of the mount effect. *)
Record State : Type := mkState {
  cells : Cells;
  readers : list DataURL;
  analyzing : list (DataURL * string);
  timers : list (DataURL * string);
  comparing : nat;
  reporting : list string;
  fetchingModels : bool
}.

(** The component after its first render: the effect has called
    [fetchAvailableModels]. *)
Definition init : State := mkState initial [] [] [] 0 [] true.

Inductive event : Type :=
  | ModelsSettled (models : option (list string))
  | Change (file : option File)
  | ReaderLoad (k : nat) (r : Q)
  | SelectModel (model : string)
  | SelectTab (tab : Tab)
  | ClickAnalyze
  | AnalyzeSettled (k : nat) (data : option (string * option string))
  | TimerFired (k : nat) (r1 r2 r3 r4 r5 : Q)
  | ClickCompare
  | CompareSettled (data : option string)
  | ClickReport
  | ReportSettled (k : nat) (data : option string)
  | ClickReset.

(** A tab button is rendered with its result. *)
Definition tab_rendered (tab : Tab) (c : Cells) : bool :=
  match tab with
  | TabAnalysis => bool_decide (is_Some (analysisResult c))
  | TabComparison => bool_decide (is_Some (modelComparison c))
  | TabOptimization => bool_decide (is_Some (optimizationReport c))
  end.

(** One callback; [None] when the event cannot happen: the four buttons
    are rendered only with a selected image, "Analyze" and "Compare Models"
    are disabled while [isProcessing], and a completion needs its pending
    work.  A backend answer is [Some] when [data.success] holds, and [None]
    for everything that ends in the [catch]. *)
Definition step (e : event) (s : State) : option State :=
  let c := cells s in
  match e with
  | ModelsSettled models =>
      if fetchingModels s then
        Some (mkState (match models with
                       | Some l => setAvailableModels l c
                       | None => c
                       end)
                      (readers s) (analyzing s) (timers s) (comparing s)
                      (reporting s) false)
      else None
  | Change file =>
      match file with
      | Some f =>
          Some (mkState (setFileInputValue (name f) c)
                        (readers s ++ [contents f]) (analyzing s) (timers s)
                        (comparing s) (reporting s) (fetchingModels s))
      | None => Some s
      end
  | ReaderLoad k r =>
      result ← readers s !! k;
      Some (mkState (reader_onload result (JS.Fin r) c)
                    (delete k (readers s)) (analyzing s) (timers s)
                    (comparing s) (reporting s) (fetchingModels s))
  | SelectModel model =>
      Some (mkState (setSelectedModel model c)
                    (readers s) (analyzing s) (timers s) (comparing s)
                    (reporting s) (fetchingModels s))
  | SelectTab tab =>
      if tab_rendered tab c then
        Some (mkState (setActiveTab tab c)
                      (readers s) (analyzing s) (timers s) (comparing s)
                      (reporting s) (fetchingModels s))
      else None
  | ClickAnalyze =>
      if isProcessing c then None
      else
        src ← selectedImage c;
        Some (mkState (processImage c)
                      (readers s) (analyzing s ++ [(src, selectedModel c)])
                      (timers s) (comparing s) (reporting s) (fetchingModels s))
  | AnalyzeSettled k data =>
      closure ← analyzing s !! k;
      match data with
      | Some (analysis, heatmap) =>
          Some (mkState (processImage_success analysis heatmap closure.1 c)
                        (readers s) (delete k (analyzing s)) (timers s)
                        (comparing s) (reporting s) (fetchingModels s))
      | None =>
          Some (mkState c (readers s) (delete k (analyzing s))
                        (timers s ++ [closure]) (comparing s) (reporting s)
                        (fetchingModels s))
      end
  | TimerFired k r1 r2 r3 r4 r5 =>
      closure ← timers s !! k;
      Some (mkState (processImage_fallback closure.1 closure.2
                       (JS.Fin r1) (JS.Fin r2) (JS.Fin r3) (JS.Fin r4) (JS.Fin r5) c)
                    (readers s) (analyzing s) (delete k (timers s))
                    (comparing s) (reporting s) (fetchingModels s))
  | ClickCompare =>
      if isProcessing c then None
      else
        _ ← selectedImage c;
        Some (mkState (compareModels c)
                      (readers s) (analyzing s) (timers s) (S (comparing s))
                      (reporting s) (fetchingModels s))
  | CompareSettled data =>
      match comparing s with
      | O => None
      | S n =>
          Some (mkState (match data with
                         | Some comparison => compareModels_success comparison c
                         | None => compareModels_fallback c
                         end)
                        (readers s) (analyzing s) (timers s) n
                        (reporting s) (fetchingModels s))
      end
  | ClickReport =>
      _ ← selectedImage c;
      Some (mkState c (readers s) (analyzing s) (timers s) (comparing s)
                    (reporting s ++ [selectedModel c]) (fetchingModels s))
  | ReportSettled k data =>
      model ← reporting s !! k;
      Some (mkState (match data with
                     | Some report => generateOptimizationReport_success report c
                     | None => generateOptimizationReport_fallback model c
                     end)
                    (readers s) (analyzing s) (timers s) (comparing s)
                    (delete k (reporting s)) (fetchingModels s))
  | ClickReset =>
      _ ← selectedImage c;
      Some (mkState (resetProcessor c)
                    (readers s) (analyzing s) (timers s) (comparing s)
                    (reporting s) (fetchingModels s))
  end.

Fixpoint run (es : list event) (s : State) : option State :=
  match es with
  | [] => Some s
  | e :: es' => s' ← step e s; run es' s'
  end.

(** The calls that hold [isProcessing]: those of [processImage], with
    their timers, and those of [compareModels]. *)
Definition in_flight (s : State) : nat :=
  (length (analyzing s) + length (timers s) + comparing s)%nat.

Definition single_flight (s : State) : Prop :=
  (in_flight s ≤ 1)%nat ∧ (isProcessing (cells s) = false → in_flight s = 0%nat).

(** [isProcessing] is set and nothing is left that would clear it. *)
Definition locked (s : State) : Prop :=
  isProcessing (cells s) = true ∧ in_flight s = 0%nat.

(** A backend answer with [data.success]. *)
Definition backend_success (e : event) : Prop :=
  match e with
  | AnalyzeSettled _ (Some _) | CompareSettled (Some _) => True
  | _ => False
  end.

End Advanced.

(** ** [ModelComparison] *)

Module ModelComparison.

Record Model : Type := mkModel {
  name : string;
  accuracy : Q;
  precision : Q;
  recall : Q;
  f1_score : Q;
  inference_time : Q;
  model_size : Q;
  parameters : Q;
  description : string;
  pros : list string;
  cons : list string
}.

(** The keys of [metrics]. *)
Inductive Metric : Type :=
  | Accuracy | Precision | Recall | F1_score | Inference_time | Model_size.

(** [m[metric]] *)
Definition get (metric : Metric) (m : Model) : Q :=
  match metric with
  | Accuracy => accuracy m
  | Precision => precision m
  | Recall => recall m
  | F1_score => f1_score m
  | Inference_time => inference_time m
  | Model_size => model_size m
  end.

(** [metric === 'inference_time' || metric === 'model_size'] *)
Definition lower_is_better (metric : Metric) : bool :=
  match metric with
  | Inference_time | Model_size => true
  | _ => false
  end.

Inductive TypeError : Type := ReduceOfEmptyArray.

(** [array.reduce(f)] without an initial value: the first element starts
    the fold; an empty array throws a [TypeError]. *)
Definition reduce {A} (f : A -> A -> A) (array : list A) : TypeError + A :=
  match array with
  | [] => inl ReduceOfEmptyArray
  | first :: rest => inr (fold_left f rest first)
  end.

(** The callback of [getBestModel]; the values are binary64 numbers, which
    [<] and [>] compare as the rationals they are. *)
Definition better (metric : Metric) (best current : Model) : Model :=
  if lower_is_better metric then
    if Qlt_le_dec (get metric current) (get metric best) then current else best
  else
    if Qlt_le_dec (get metric best) (get metric current) then current else best.

(** [getBestModel], with the table [sortedModels] that it closes over. *)
Definition getBestModel (sortedModels : list Model) (metric : Metric)
  : TypeError + Model :=
  reduce (better metric) sortedModels.

(** [models] *)
Definition models : list Model :=
  [ mkModel "VGG16" (JS.b64 (89 # 100)) (JS.b64 (87 # 100)) (JS.b64 (91 # 100))
      (JS.b64 (89 # 100)) (JS.b64 (45 # 100)) 528 138000000
      "Deep CNN with 16 layers, excellent for feature extraction"
      ["High accuracy"; "Good feature extraction"; "Proven architecture"]
      ["Large model size"; "Slow inference"; "High memory usage"];
    mkModel "ResNet50" (JS.b64 (92 # 100)) (JS.b64 (90 # 100)) (JS.b64 (94 # 100))
      (JS.b64 (92 # 100)) (JS.b64 (38 # 100)) 98 25600000
      "Residual Network with 50 layers, excellent performance"
      ["Highest accuracy"; "Efficient training"; "Good generalization"]
      ["Moderate size"; "Complex architecture"];
    mkModel "MobileNetV2" (JS.b64 (85 # 100)) (JS.b64 (83 # 100)) (JS.b64 (87 # 100))
      (JS.b64 (85 # 100)) (JS.b64 (15 # 100)) 14 3500000
      "Lightweight CNN optimized for mobile devices"
      ["Very fast inference"; "Small model size"; "Mobile optimized"]
      ["Lower accuracy"; "Limited complexity"];
    mkModel "EfficientNet" (JS.b64 (94 # 100)) (JS.b64 (93 # 100)) (JS.b64 (95 # 100))
      (JS.b64 (94 # 100)) (JS.b64 (25 # 100)) 29 5500000
      "Efficient CNN with compound scaling"
      ["Best accuracy"; "Efficient scaling"; "Good speed"]
      ["Newer architecture"; "Complex implementation"] ]%string.

(** The comparator given to [sort]. *)
Definition compareFn (sortBy : Metric) (a b : Model) : JS.Number :=
  if lower_is_better sortBy
  then (JS.Fin (get sortBy a) - JS.Fin (get sortBy b))%js   (* Lower is better *)
  else (JS.Fin (get sortBy b) - JS.Fin (get sortBy a))%js.  (* Higher is better *)

(** [array.sort(compareFn)] on a copy: the order that the comparator
    defines, elements that compare equal keeping their order (the sort is
    stable).  [x], which comes before the elements of [sorted] in the array,
    is put before the first of them that the comparator does not put
    before [x]. *)
Fixpoint insert {A} (compareFn : A -> A -> JS.Number) (x : A) (sorted : list A)
  : list A :=
  match sorted with
  | [] => [x]
  | y :: rest =>
      if JS.gt (JS.of_Z 0) (compareFn y x)      (* [compareFn(y, x) < 0] *)
      then y :: insert compareFn x rest
      else x :: y :: rest
  end.

Definition sort {A} (compareFn : A -> A -> JS.Number) (array : list A) : list A :=
  foldr (insert compareFn) [] array.

(** [sortedModels], for the value of [sortBy]. *)
Definition sortedModels (sortBy : Metric) : list Model :=
  sort (compareFn sortBy) models.

Definition all_metrics : list Metric :=
  [Accuracy; Precision; Recall; F1_score; Inference_time; Model_size].

(** [best] is at least as good as [m]. *)
Definition at_least_as_good (metric : Metric) (best m : Model) : Prop :=
  if lower_is_better metric then (get metric best <= get metric m)%Q
  else (get metric m <= get metric best)%Q.

#[global] Instance Model_eq_dec : EqDecision Model.
Proof. solve_decision. Defined.

End ModelComparison.

(** ** The quick start script *)

Module QuickStart.

(** What the script finds on the machine: whether [docker info] succeeds,
    whether [docker-compose.yml] is a file of the directory, and whether
    the [k]-th call of [curl -f .../api/health] succeeds. *)
Record Env : Type := mkEnv {
  docker_running : bool;
  compose_file : bool;
  healthy : nat -> bool
}.

(** The commands that the script runs, in the order it runs them. *)
Inductive command : Type :=
  | echo (line : string)
  | echo_n (text : string)
  | docker_info
  | test_f (file : string)
  | docker_compose_up
  | curl_health
  | sleep (seconds : nat)
  | docker_compose_logs.

Record Outcome : Type := mkOutcome {
  trace : list command;
  status : nat          (* the argument of [exit] *)
}.

Definition max_attempts : nat := 30.

Definition banner : list command :=
  [echo "🏥 Medical Imaging Analysis Platform";
   echo "=====================================";
   echo ""].

Definition starting : list command :=
  [echo "🚀 Starting the Medical Imaging Analysis Platform...";
   echo ""]
  ++ [docker_compose_up]
  ++ [echo "";
      echo "⏳ Waiting for the application to start...";
      echo "   This may take a few minutes on first run..."].

Definition ready : list command :=
  [echo "";
   echo "✅ Application is ready!";
   echo "";
   echo "🌐 Access the application at:";
   echo "   Frontend: http://localhost:5000";
   echo "   API: http://localhost:5000/api";
   echo "   Health Check: http://localhost:5000/api/health";
   echo "";
   echo "📋 Available Features:";
   echo "   • Basic X-Ray Analysis";
   echo "   • Advanced AI Analysis with Heatmaps";
   echo "   • Model Comparison Dashboard";
   echo "   • Methodology Flow Visualization";
   echo "   • Model Optimization Reports";
   echo "";
   echo "🛠️  Management Commands:";
   echo "   • View logs: docker-compose logs -f";
   echo "   • Stop app: docker-compose down";
   echo "   • Restart: docker-compose restart";
   echo "";
   echo "⚠️  Medical Disclaimer:";
   echo "   This is a demonstration tool for educational purposes.";
   echo "   Results are simulated and should not be used for medical diagnosis.";
   echo "";
   echo "🎉 Enjoy exploring the Medical Imaging Analysis Platform!"].

Definition failed : list command :=
  [echo "";
   echo "❌ Application failed to start within the expected time.";
   echo "   Checking logs for more information...";
   echo ""]
  ++ [docker_compose_logs]
  ++ [echo "";
      echo "🔧 Troubleshooting:";
      echo "   1. Make sure Docker is running";
      echo "   2. Check if port 5000 is available";
      echo "   3. Try: docker-compose down && docker-compose up --build";
      echo "   4. Check logs: docker-compose logs -f"].

(** [while [ $attempt -lt $max_attempts ]; do ... done] and what follows
    it, with the number of iterations bounded by [fuel]. *)
Fixpoint poll (env : Env) (fuel attempt : nat) : option Outcome :=
  if (attempt <? max_attempts)%nat then
    match fuel with
    | O => None
    | S fuel' =>
        if healthy env attempt then
          Some (mkOutcome (curl_health :: ready) 0)
        else
          out ← poll env fuel' (attempt + 1);
          Some (mkOutcome (curl_health :: echo_n "." :: sleep 2 :: trace out)
                          (status out))
    end
  else Some (mkOutcome failed 1).

Definition script (env : Env) : option Outcome :=
  if negb (docker_running env) then
    Some (mkOutcome
            (banner ++ [docker_info;
                        echo "❌ Docker is not running. Please start Docker first."])
            1)
  else if negb (compose_file env) then
    Some (mkOutcome
            (banner ++ [docker_info; test_f "docker-compose.yml";
                        echo "❌ Please run this script from the project root directory."])
            1)
  else
    out ← poll env max_attempts 0;
    Some (mkOutcome
            (banner ++ [docker_info; test_f "docker-compose.yml"] ++ starting
                    ++ trace out)
            (status out)).

(** The calls of [curl] in a trace, and the seconds slept. *)
Definition polls (t : list command) : nat :=
  foldr (fun c n => match c with curl_health => S n | _ => n end) 0%nat t.

Definition slept (t : list command) : nat :=
  foldr (fun c n => match c with sleep k => (k + n)%nat | _ => n end) 0%nat t.

(** How the loop ends when it is entered with [attempt]: ready at the
    first healthy poll, or failed after the last one. *)
Definition polled (env : Env) (attempt : nat) (out : Outcome) : Prop :=
  (∃ k, (attempt ≤ k < max_attempts)%nat ∧ healthy env k = true ∧
        (∀ j, (attempt ≤ j < k)%nat → healthy env j = false) ∧
        status out = 0%nat ∧
        polls (trace out) = (k - attempt + 1)%nat ∧
        slept (trace out) = (2 * (k - attempt))%nat) ∨
  ((∀ j, (attempt ≤ j < max_attempts)%nat → healthy env j = false) ∧
   status out = 1%nat ∧
   polls (trace out) = (max_attempts - attempt)%nat ∧
   slept (trace out) = (2 * (max_attempts - attempt))%nat).

End QuickStart.

(** A value of [Math.random()] for which [Math.floor(r * 40)] is [k], for
    [k] from 0 to 39: the least multiple of 1/64 that is at least
    [k / 40]. *)
Definition draw_for (k : Z) : Q := ((8 * k + 4) / 5) # 64.


(** A store with one object, an [ImageData], at location 1. *)
Definition one_ImageData (b : Bitmap) : gmap positive object :=
  {[1%positive := ImageData b]}.

(** The application answers from the fourth poll on. *)
Definition slow_start : QuickStart.Env :=
  QuickStart.mkEnv true true (fun k => (3 <=? k)%nat).

(** * Properties *)

(** ** The loop over the array *)

Section Array.
Implicit Types (data out : list Z) (i j k : nat) (x : JS.Number).

Local Opaque JS.ToUint8Clamp js_clamp js_stretch js_invert.

Lemma length_store data i x : length (store data i x) = length data.
Proof. apply length_insert. Qed.

Lemma lookup_assign g k data j :
  assign g k data !! j =
  (if decide (k = j) then (fun v => JS.ToUint8Clamp (g (JS.of_Z v))) else id)
    <$> data !! j.
Proof.
  unfold assign, store, load.
  destruct (decide (k = j)) as [->|Hne].
  - destruct (data !! j) as [v|] eqn:Hj; simpl.
    + apply list_lookup_insert_eq. by eapply lookup_lt_Some.
    + rewrite list_insert_ge; [done|]. by apply lookup_ge_None.
  - rewrite list_lookup_insert_ne by done. by destruct (data !! j).
Qed.

Lemma xray_body_assign i data :
  xray_body i data =
  assign (fun x => js_clamp (js_stretch x)) (i + 2)
    (assign (fun x => js_clamp (js_stretch x)) (i + 1)
      (assign (fun x => js_clamp (js_stretch x)) i
        (assign js_invert (i + 2)
          (assign js_invert (i + 1)
            (assign js_invert i data))))).
Proof. reflexivity. Qed.

(** One iteration rewrites the three colour bytes of the pixel at [i]
    and nothing else. *)
Lemma lookup_xray_body i data j :
  xray_body i data !! j =
  (if decide (i ≤ j < i + 3)%nat then channel else id) <$> data !! j.
Proof.
  rewrite xray_body_assign, !lookup_assign.
  destruct (data !! j) as [v|];
    repeat case_decide; try lia; subst;
    cbn [fmap option_fmap option_map]; reflexivity.
Qed.

Lemma length_xray_body i data : length (xray_body i data) = length data.
Proof. rewrite xray_body_assign. unfold assign. by rewrite !length_store. Qed.

(** The colour bytes at or after [i] are those of the pixel at [i] and
    those at or after [i + 4]. *)
Lemma colour_index_step i j :
  (i ≤ j ∧ (j - i) mod 4 ≠ 3)%nat ↔
  (i ≤ j < i + 3 ∨ (i + 4 ≤ j ∧ (j - (i + 4)) mod 4 ≠ 3))%nat.
Proof.
  destruct (decide (i + 4 ≤ j)%nat) as [Hj|Hj].
  - replace (j - i)%nat with ((j - (i + 4)) + 1 * 4)%nat by lia.
    rewrite Nat.Div0.mod_add. lia.
  - assert (j < i ∨ j = i ∨ j = i + 1 ∨ j = i + 2 ∨ j = i + 3)%nat
      as [?|[->|[->|[->| ->]]]] by lia; [lia|..].
    + replace (i - i)%nat with 0%nat by lia. cbn. lia.
    + replace (i + 1 - i)%nat with 1%nat by lia. cbn. lia.
    + replace (i + 2 - i)%nat with 2%nat by lia. cbn. lia.
    + replace (i + 3 - i)%nat with 3%nat by lia. cbn. lia.
Qed.

(** The loop started at index [i]: with enough fuel it ends, and byte [j]
    of its result is the channel function of byte [j] of the array it
    started on when [j] is a colour byte of a pixel at or after [i]. *)
Lemma xray_loop_spec fuel : ∀ i data,
  (length data ≤ i + fuel)%nat →
  ∃ out, xray_loop fuel i data = Some out ∧
         length out = length data ∧
         ∀ j, out !! j =
              (if decide (i ≤ j ∧ (j - i) mod 4 ≠ 3)%nat then channel else id)
                <$> data !! j.
Proof.
  assert (Hexit : ∀ i data j, (length data ≤ i)%nat →
    data !! j =
    (if decide (i ≤ j ∧ (j - i) mod 4 ≠ 3)%nat then channel else id)
      <$> data !! j).
  { intros i data j Hge. destruct (data !! j) as [v|] eqn:Hj.
    - apply lookup_lt_Some in Hj. case_decide; [lia|done].
    - by case_decide. }
  induction fuel as [|fuel IH]; intros i data Hfuel; cbn [xray_loop].
  - destruct (Nat.ltb_spec i (length data)); [lia|].
    exists data. split_and!; [done..|]. intros j. by apply Hexit.
  - destruct (Nat.ltb_spec i (length data)) as [Hlt|Hge].
    + destruct (IH (i + 4)%nat (xray_body i data)) as (out & Hout & Hlen & Hlk).
      { rewrite length_xray_body. lia. }
      exists out. split_and!; [done| by rewrite Hlen, length_xray_body |].
      intros j. rewrite Hlk, lookup_xray_body.
      pose proof (colour_index_step i j) as Hstep.
      destruct (data !! j) as [v|];
        repeat case_decide; cbn [fmap option_fmap option_map];
        try reflexivity; exfalso; lia || tauto.
    + exists data. split_and!; [done..|]. intros j. by apply Hexit.
Qed.

(** The whole transform: it ends on every array, keeps the length, maps
    each colour byte by [channel] and keeps each alpha byte. *)
Lemma xray_pixels_spec data :
  ∃ out, xray_pixels data = Some out ∧
         length out = length data ∧
         ∀ j, out !! j =
              (if decide (j mod 4 ≠ 3)%nat then channel else id) <$> data !! j.
Proof.
  destruct (xray_loop_spec (length data) 0 data) as (out & Hout & Hlen & Hlk);
    [lia|].
  exists out. split_and!; [done..|]. intros j. rewrite Hlk.
  replace (j - 0)%nat with j by lia.
  destruct (data !! j);
    repeat case_decide; cbn [fmap option_fmap option_map];
    try reflexivity; exfalso; lia || tauto.
Qed.

Local Transparent JS.ToUint8Clamp js_clamp js_stretch js_invert.

End Array.

(** ** The store conversion and the channel function *)

Lemma round_half_even_bounds (y : Q) (a b : Z) :
  (inject_Z a <= y)%Q → (y <= inject_Z b)%Q →
  a ≤ JS.round_half_even y ≤ b.
Proof.
  intros Ha Hb. unfold JS.round_half_even.
  assert (a ≤ Qfloor y) as Hfa.
  { rewrite <- (Qfloor_Z a). by apply Qfloor_resp_le. }
  assert (Qfloor y ≤ b) as Hfb.
  { rewrite <- (Qfloor_Z b). by apply Qfloor_resp_le. }
  assert ((inject_Z (Qfloor y) + (1 # 2) <= y)%Q → Qfloor y + 1 ≤ b) as Hup.
  { intros Hhalf. destruct (decide (Qfloor y = b)) as [Heq|]; [|lia].
    exfalso. rewrite Heq in Hhalf.
    apply (Qlt_irrefl (inject_Z b)).
    eapply Qlt_le_trans; [|eapply Qle_trans; [exact Hhalf|exact Hb]].
    rewrite <- (Qplus_0_r (inject_Z b)) at 1.
    apply Qplus_lt_r. reflexivity. }
  destruct (Qcompare y (inject_Z (Qfloor y) + (1 # 2))) eqn:Hc.
  - apply Qeq_alt in Hc.
    destruct (Z.even (Qfloor y)); [lia|].
    split; [lia|]. apply Hup. apply Qle_lteq. right. symmetry. exact Hc.
  - lia.
  - apply Qgt_alt in Hc. split; [lia|]. apply Hup. by apply Qlt_le_weak.
Qed.

(** Whatever Number is stored, the byte that ends up in the array is in
    [0, 255]. *)
Lemma ToUint8Clamp_range (x : JS.Number) : 0 ≤ JS.ToUint8Clamp x ≤ 255.
Proof.
  destruct x as [q|]; [|cbn; lia]. unfold JS.ToUint8Clamp.
  destruct (Qle_bool q 0) eqn:H0.
  { apply (round_half_even_bounds 0 0 255); by compute. }
  destruct (Qle_bool 255 q) eqn:H255.
  { apply (round_half_even_bounds 255 0 255); by compute. }
  apply (round_half_even_bounds q 0 255).
  - apply Qnot_lt_le. intros Hlt. apply Qlt_le_weak, Qle_bool_iff in Hlt.
    change (Qle_bool q 0 = true) in Hlt. congruence.
  - apply Qnot_lt_le. intros Hlt. apply Qlt_le_weak, Qle_bool_iff in Hlt.
    change (Qle_bool 255 q = true) in Hlt. congruence.
Qed.

Lemma channel_range (v : Z) : 0 ≤ channel v ≤ 255.
Proof. apply ToUint8Clamp_range. Qed.

Lemma all_bytes_spec (P : Z → bool) :
  all_bytes P = true → ∀ v, 0 ≤ v ≤ 255 → P v = true.
Proof.
  unfold all_bytes. rewrite forallb_forall. intros HP v Hv. apply HP.
  apply in_map_iff. exists (Z.to_nat v). split; [lia|].
  apply in_seq. lia.
Qed.

(** On a byte, the two stores of the code compute the formula of the
    specification, rounded to the nearest integer, ties to even. *)
Lemma channel_spec (v : Z) :
  0 ≤ v ≤ 255 → channel v = JS.round_half_even (spec_channel v).
Proof.
  intros Hv. apply Z.eqb_eq.
  apply (all_bytes_spec
           (fun v => channel v =? JS.round_half_even (spec_channel v)));
    [by vm_compute|done].
Qed.

(** X5: before the clamp, the Number that the code computes for a byte is
    the exact value of the formula: no binary64 operation of the loop
    rounds. *)
Lemma raw_value_exact (v : Z) :
  0 ≤ v ≤ 255 → ∃ q, raw_value v = JS.Fin q ∧ (q == spec_raw v)%Q.
Proof.
  intros Hv.
  pose proof (all_bytes_spec
    (fun v => match raw_value v with
              | JS.Fin q => Qeq_bool q (spec_raw v)
              | JS.NaN => false
              end)) as Hall.
  specialize (Hall ltac:(by vm_compute) v Hv). cbv beta in Hall.
  destruct (raw_value v) as [q|]; [|done].
  exists q. split; [done|]. by apply Qeq_bool_iff.
Qed.

(** Only 0 and 255 come back after two applications. *)
Lemma channel_twice (v : Z) :
  0 ≤ v ≤ 255 → channel (channel v) = v ↔ v = 0 ∨ v = 255.
Proof.
  intros Hv.
  pose proof (all_bytes_spec
    (fun v => bool_decide (channel (channel v) = v ↔ v = 0 ∨ v = 255))) as Hall.
  specialize (Hall ltac:(by vm_compute) v Hv).
  by apply bool_decide_eq_true in Hall.
Qed.

(** No byte is mapped to itself. *)
Lemma channel_moves (v : Z) : 0 ≤ v ≤ 255 → channel v ≠ v.
Proof.
  intros Hv.
  pose proof (all_bytes_spec (fun v => negb (channel v =? v))) as Hall.
  specialize (Hall ltac:(by vm_compute) v Hv). cbv beta in Hall.
  apply negb_true_iff in Hall. by apply Z.eqb_neq in Hall.
Qed.

Lemma channel_neq (v : Z) : channel v ≠ v.
Proof.
  destruct (decide (0 ≤ v ≤ 255)) as [Hv|Hv]; [by apply channel_moves|].
  pose proof (channel_range v). lia.
Qed.

(** ** The pixel transform on a buffer *)

(** C1, as amended: for every RGBA buffer and every colour byte [v] in
    [0, 255] of it, the transform ends and puts at the same index the value
    [clamp(0, 255, (255 - v - 128) * 1.5 + 128)] rounded to the nearest
    integer, a tie going to the even one.  The new byte is a function of
    the old byte at that index alone. *)
Theorem xray_colour_byte (data : list Z) (i : nat) (v : Z) :
  (i mod 4 ≠ 3)%nat → data !! i = Some v → 0 ≤ v ≤ 255 →
  ∃ out, xray_pixels data = Some out ∧
         out !! i = Some (JS.round_half_even (spec_channel v)).
Proof.
  intros Hi Hv Hbyte.
  destruct (xray_pixels_spec data) as (out & Hout & _ & Hlk).
  exists out. split; [done|].
  rewrite Hlk, Hv. rewrite decide_True by done. cbn [fmap option_fmap option_map].
  f_equal. by apply channel_spec.
Qed.

Lemma xray_colour_byte_witness :
  ((0 mod 4 ≠ 3)%nat ∧ [126; 0; 255; 255] !! 0%nat = Some 126 ∧ 0 ≤ 126 ≤ 255) ∧
  ∃ out, xray_pixels [126; 0; 255; 255] = Some out ∧
         out !! 0%nat = Some (JS.round_half_even (spec_channel 126)).
Proof.
  split.
  - split; [discriminate|]. split; [reflexivity|lia].
  - apply (xray_colour_byte [126; 0; 255; 255] 0 126);
      [discriminate|reflexivity|lia].
Defined.

(** C1 as stated fails: for [v = 126] the formula gives 129.5, and the byte
    in the output is 130. *)
Lemma xray_colour_byte_not_formula :
  xray_pixels [126; 0; 255; 255] = Some [130; 255; 0; 255] ∧
  (spec_channel 126 == 259 # 2)%Q ∧
  ¬ (inject_Z 130 == spec_channel 126)%Q.
Proof. split; [by vm_compute|]. split; by vm_compute. Qed.

(** The loop itself has no check and no [throw]: on every list it ends and
    returns a list of the same length. *)
Lemma xray_pixels_total (data : list Z) :
  ∃ out, xray_pixels data = Some out ∧ length out = length data.
Proof.
  destruct (xray_pixels_spec data) as (out & Hout & Hlen & _). eauto.
Qed.

(** C4, as amended: [v = 0] gives the raw value 318.5 and the byte 255,
    [v = 128] gives the raw value 126.5 and the byte 126 (the tie goes to
    the even neighbour), [v = 255] gives the raw value -64 and the byte
    0. *)
Theorem channel_boundaries :
  (raw_value 0 = JS.Fin (637 # 2) ∧ channel 0 = 255) ∧
  (raw_value 128 = JS.Fin (253 # 2) ∧ channel 128 = 126) ∧
  (raw_value 255 = JS.Fin (-64) ∧ channel 255 = 0) ∧
  xray_pixels [0; 128; 255; 255] = Some [255; 126; 0; 255].
Proof. repeat split; by vm_compute. Qed.

(** C4 as stated fails at [v = 128]: the raw value is 126.5, not 127.25,
    and the byte is 126, not 127. *)
Lemma channel_128_not_127 :
  raw_value 128 = JS.Fin (253 # 2) ∧
  ¬ (253 # 2 == 509 # 4)%Q ∧
  (spec_raw 128 == 253 # 2)%Q ∧
  channel 128 = 126 ∧ channel 128 ≠ 127.
Proof. repeat split; by vm_compute. Qed.

(** C5: for every buffer, the transform ends and every alpha byte of its
    result is the alpha byte of the input (indices past the end are absent
    from both). *)
Theorem xray_alpha_preserved (data : list Z) (i : nat) :
  (i mod 4 = 3)%nat →
  ∃ out, xray_pixels data = Some out ∧ out !! i = data !! i.
Proof.
  intros Hi.
  destruct (xray_pixels_spec data) as (out & Hout & _ & Hlk).
  exists out. split; [done|].
  rewrite Hlk. rewrite decide_False by (intros Hne; by apply Hne).
  by destruct (data !! i).
Qed.

Lemma xray_alpha_preserved_witness :
  (7 mod 4 = 3)%nat ∧
  ∃ out, xray_pixels [10; 20; 30; 40; 50; 60; 70; 80] = Some out ∧
         out !! 7%nat = [10; 20; 30; 40; 50; 60; 70; 80] !! 7%nat.
Proof.
  split; [reflexivity|].
  apply (xray_alpha_preserved [10; 20; 30; 40; 50; 60; 70; 80] 7). reflexivity.
Defined.

(** C7: for every buffer, whatever its contents, the transform ends and
    every colour byte of its result is in [0, 255]. *)
Theorem xray_colour_range (data : list Z) (i : nat) :
  (i mod 4 ≠ 3)%nat → (i < length data)%nat →
  ∃ out c, xray_pixels data = Some out ∧ out !! i = Some c ∧ 0 ≤ c ≤ 255.
Proof.
  intros Hi Hlt.
  destruct (xray_pixels_spec data) as (out & Hout & _ & Hlk).
  destruct (lookup_lt_is_Some_2 data i Hlt) as [v Hv].
  exists out, (channel v). split; [done|]. split; [|apply channel_range].
  rewrite Hlk, Hv. by rewrite decide_True by done.
Qed.

Lemma xray_colour_range_witness :
  ((1 mod 4 ≠ 3)%nat ∧ (1 < length [0; 128; 255; 255])%nat) ∧
  ∃ out c, xray_pixels [0; 128; 255; 255] = Some out ∧
           out !! 1%nat = Some c ∧ 0 ≤ c ≤ 255.
Proof.
  split.
  - split; [discriminate|]. cbn. lia.
  - apply (xray_colour_range [0; 128; 255; 255] 1); [discriminate|cbn; lia].
Defined.

(** C8: the transform is not an involution.  There is a channel value in
    [0, 255] that two applications do not give back, and a buffer that two
    runs of the loop do not give back. *)
Theorem xray_not_involution :
  (∃ v, 0 ≤ v ≤ 255 ∧ channel (channel v) ≠ v) ∧
  (∃ data once twice,
     xray_pixels data = Some once ∧ xray_pixels once = Some twice ∧
     twice ≠ data).
Proof.
  split.
  - exists 100. split; [lia|]. by vm_compute.
  - exists [100; 100; 100; 255], [168; 168; 168; 255], [66; 66; 66; 255].
    split; [by vm_compute|]. split; [by vm_compute|]. discriminate.
Qed.

(** ** The objects of [applyXRayEffect] *)

(** Each access of the store, when the object is there. *)
Lemma bind_canvasBitmap {A} (c : positive) b (k : Bitmap → M A) (h : gmap positive object) :
  h !! c = Some (HTMLCanvasElement b) →
  bind (canvasBitmap c) k h = k b h.
Proof. intros H. unfold bind, canvasBitmap. by rewrite H. Qed.

Lemma bind_imageBitmap {A} (i : positive) b (k : Bitmap → M A) (h : gmap positive object) :
  h !! i = Some (HTMLImageElement (Some b)) →
  bind (imageBitmap i) k h = k b h.
Proof. intros H. unfold bind, imageBitmap. by rewrite H. Qed.

Lemma bind_imageDataBitmap {A} (d : positive) b (k : Bitmap → M A) (h : gmap positive object) :
  h !! d = Some (ImageData b) →
  bind (imageDataBitmap d) k h = k b h.
Proof. intros H. unfold bind, imageDataBitmap. by rewrite H. Qed.

Lemma bind_update {A} (l : positive) o (k : unit → M A) (h : gmap positive object) :
  bind (update l o) k h = k tt (<[l := o]> h).
Proof. reflexivity. Qed.

Lemma bind_bind {A B C} (m : M A) (f : A → M B) (g : B → M C) h :
  bind (bind m f) g h = bind m (fun a => bind (f a) g) h.
Proof. unfold bind. by destruct (m h). Qed.

Lemma bind_alloc {A} o (k : positive → M A) (h : gmap positive object) :
  bind (alloc o) k h = k (fresh (dom h)) (<[fresh (dom h) := o]> h).
Proof. reflexivity. Qed.

Lemma fresh_lookup (h : gmap positive object) : h !! fresh (dom h) = None.
Proof. apply not_elem_of_dom. apply is_fresh. Qed.

Lemma length_convert (f : Z → Z → Z) (data : list Z) :
  length (convert f data) = length data.
Proof. unfold convert. by rewrite length_imap. Qed.

Lemma length_straight (data : list Z) : length (straight data) = length data.
Proof. apply length_convert. Qed.

Lemma length_premultiplied (data : list Z) :
  length (premultiplied data) = length data.
Proof. apply length_convert. Qed.

Lemma lookup_convert (f : Z → Z → Z) (data : list Z) (k : nat) :
  convert f data !! k =
  (fun c => if decide (k mod 4 = 3)%nat then c else f (alpha_at data k) c)
    <$> data !! k.
Proof. unfold convert. by rewrite list_lookup_imap. Qed.

(** The callback on an image with pixels: one new object, the
    [ImageData]; the loop runs on the bytes that [getImageData] copied out
    of the canvas, and its result is in the [ImageData]; the canvas holds
    it premultiplied, and the URL what the encoder makes of that. *)
Lemma onload_run (c i : positive) (b : Bitmap) (h : gmap positive object) cb0 :
  c ≠ i →
  h !! c = Some (HTMLCanvasElement cb0) →
  h !! i = Some (HTMLImageElement (Some b)) →
  width b ≠ 0%nat → height b ≠ 0%nat →
  ∃ d out,
    h !! d = None ∧
    xray_pixels (straight (drawn b)) = Some out ∧
    onload c i h =
      Normal (mkDataURL "image/png"
                (Some (mkBitmap (width b) (height b) (straight (premultiplied out)))))
        (<[c := HTMLCanvasElement (mkBitmap (width b) (height b) (premultiplied out))]>
           (<[d := ImageData (mkBitmap (width b) (height b) out)]> h)).
Proof.
  intros Hci Hc Hi Hw Hh.
  destruct (xray_pixels_spec (straight (drawn b))) as (out & Hout & Hlen & _).
  set (hc := <[c := HTMLCanvasElement (mkBitmap (width b) (height b) (drawn b))]> h).
  exists (fresh (dom hc)), out.
  assert (hc !! fresh (dom hc) = None) as Hd by apply fresh_lookup.
  assert (fresh (dom hc) ≠ c) as Hdc.
  { intros Heq. rewrite Heq in Hd. unfold hc in Hd. by rewrite lookup_insert_eq in Hd. }
  split. { unfold hc in Hd. by rewrite lookup_insert_ne in Hd. }
  split; [done|].
  unfold onload.
  rewrite (bind_imageBitmap i b) by done.
  unfold setWidth. rewrite bind_bind. rewrite (bind_canvasBitmap c cb0) by done.
  rewrite bind_update.
  unfold setHeight. rewrite bind_bind. erewrite bind_canvasBitmap by (by rewrite lookup_insert_eq).
  rewrite bind_update. cbn [width height]. rewrite insert_insert_eq.
  unfold drawImage. rewrite bind_bind.
  rewrite (bind_imageBitmap i b) by (by rewrite lookup_insert_ne).
  rewrite bind_bind.
  erewrite bind_canvasBitmap by (by rewrite lookup_insert_eq).
  rewrite decide_False by tauto.
  rewrite bind_update, insert_insert_eq. cbn [width height pixels blank].
  erewrite bind_canvasBitmap by (by rewrite lookup_insert_eq).
  cbn [width height pixels].
  unfold getImageData. rewrite decide_False by tauto.
  rewrite bind_bind.
  erewrite bind_canvasBitmap by (by rewrite lookup_insert_eq).
  cbn [pixels]. fold (drawn b). fold hc.
  rewrite bind_alloc. set (d := fresh (dom hc)) in *.
  unfold xrayInPlace. rewrite bind_bind.
  erewrite bind_imageDataBitmap by (by rewrite lookup_insert_eq).
  cbn [pixels width height]. rewrite Hout. rewrite bind_update.
  rewrite insert_insert_eq.
  unfold putImageData. rewrite bind_bind.
  erewrite bind_imageDataBitmap by (by rewrite lookup_insert_eq).
  rewrite bind_bind.
  erewrite bind_canvasBitmap by (rewrite lookup_insert_ne by done; apply lookup_insert_eq).
  rewrite bind_update. cbn [pixels width height].
  unfold toDataURL.
  erewrite bind_canvasBitmap by (by rewrite lookup_insert_eq).
  unfold ret. cbn [pixels width height]. f_equal.
  unfold hc. rewrite (insert_insert_ne _ d c) by done.
  by rewrite insert_insert_eq.
Qed.

Lemma length_drawn (b : Bitmap) : length (drawn b) = (4 * width b * height b)%nat.
Proof. unfold drawn. by rewrite length_imap, length_replicate. Qed.

(** Drawing a well-formed image on a cleared canvas of its own size leaves
    the pixels of the image, premultiplied, on the canvas. *)
Lemma drawn_well_formed (b : Bitmap) :
  well_formed b → drawn b = premultiplied (pixels b).
Proof.
  unfold well_formed, drawn, premultiplied. intros Hwf. apply list_eq. intros k.
  rewrite lookup_convert, list_lookup_imap.
  destruct (decide (k < 4 * width b * height b)%nat) as [Hk|Hk].
  - rewrite lookup_replicate_2 by done. cbn [fmap option_fmap option_map].
    destruct (lookup_lt_is_Some_2 (pixels b) k) as [v Hv]; [lia|].
    rewrite Hv. cbn [fmap option_fmap option_map]. f_equal.
    unfold drawn_byte, source_over, alpha_at.
    assert (width b ≠ 0)%nat as Hw by (intros Hz; rewrite Hz in Hk; lia).
    assert (k / 4 < width b * height b)%nat as Hp.
    { apply Nat.Div0.div_lt_upper_bound. lia. }
    assert (k / 4 / width b < height b)%nat as Hy.
    { by apply Nat.Div0.div_lt_upper_bound. }
    pose proof (Nat.mod_upper_bound (k / 4) (width b) Hw) as Hx.
    rewrite decide_True by done. cbv zeta.
    replace (k / 4 / width b * width b + (k / 4) mod width b)%nat with (k / 4)%nat.
    2:{ pose proof (Nat.div_mod_eq (k / 4) (width b)) as H1.
        rewrite (Nat.mul_comm (k / 4 / width b) (width b)). lia. }
    replace (4 * (k / 4) + k mod 4)%nat with k
      by (pose proof (Nat.div_mod_eq k 4); lia).
    rewrite Hv. cbn [default from_option].
    replace ((2 * 0 * (255 - default 0 (pixels b !! (4 * (k / 4) + 3)%nat)) + 255) / 510)
      with 0 by reflexivity.
    by rewrite Z.add_0_r.
  - replace (replicate (4 * width b * height b) 0 !! k) with (@None Z).
    2:{ symmetry. apply lookup_replicate_None. lia. }
    cbn [fmap option_fmap option_map].
    replace (pixels b !! k) with (@None Z); [done|].
    symmetry. apply lookup_ge_None. lia.
Qed.

(** An opaque pixel is kept as it is by both conversions. *)
Lemma premultiplied_opaque (data : list Z) : opaque data → premultiplied data = data.
Proof.
  intros Hop. apply list_eq. intros k. unfold premultiplied.
  rewrite lookup_convert. destruct (data !! k) as [v|] eqn:Hv; [|done].
  cbn [fmap option_fmap option_map]. f_equal. case_decide; [done|].
  rewrite Hop by (by eapply lookup_lt_Some). unfold premultiply.
  replace (2 * v * 255 + 255) with (255 + v * 510) by lia.
  by rewrite Z.div_add.
Qed.

Lemma straight_opaque (data : list Z) :
  opaque data → bytes data → straight data = data.
Proof.
  intros Hop Hb. apply list_eq. intros k. unfold straight.
  rewrite lookup_convert. destruct (data !! k) as [v|] eqn:Hv; [|done].
  cbn [fmap option_fmap option_map]. f_equal. case_decide; [done|].
  rewrite Hop by (by eapply lookup_lt_Some). unfold unpremultiply.
  change (255 =? 0) with false. cbv iota.
  replace (510 * v + 255) with (255 + v * (2 * 255)) by lia.
  rewrite Z.div_add by done. change (255 / (2 * 255)) with 0.
  unfold bytes in Hb. rewrite Forall_lookup in Hb. specialize (Hb k v Hv). lia.
Qed.

(** The loop keeps a buffer opaque, and stores bytes. *)
Lemma xray_opaque (data out : list Z) :
  xray_pixels data = Some out → opaque data → opaque out.
Proof.
  intros Hout Hop.
  destruct (xray_pixels_spec data) as (out' & Hout' & Hlen & Hlk).
  assert (out' = out) as -> by congruence.
  intros k Hk. rewrite Hlen in Hk. rewrite <- (Hop k Hk).
  unfold alpha_at. rewrite Hlk.
  assert ((4 * (k / 4) + 3) mod 4 = 3)%nat as H3.
  { rewrite (Nat.mul_comm 4), Nat.add_comm. by rewrite Nat.Div0.mod_add. }
  rewrite decide_False by (intros Hne; by apply Hne).
  by destruct (data !! (4 * (k / 4) + 3)%nat).
Qed.

Lemma xray_bytes (data out : list Z) :
  xray_pixels data = Some out → bytes data → bytes out.
Proof.
  intros Hout Hb.
  destruct (xray_pixels_spec data) as (out' & Hout' & Hlen & Hlk).
  assert (out' = out) as -> by congruence.
  unfold bytes in *. rewrite Forall_lookup in *. intros k v Hv.
  rewrite Hlk in Hv. destruct (data !! k) as [w|] eqn:Hw; [|done].
  cbn [fmap option_fmap option_map] in Hv. injection Hv as <-.
  case_decide; [apply channel_range|]. by eapply Hb.
Qed.

(** A run of [applyXRayEffect] on a source that decodes to a bitmap [b]
    with pixels: three new objects, the image still holding [b], the
    [ImageData] holding the result of the loop, the canvas holding it
    premultiplied, and a URL of the canvas. *)
Lemma applyXRayEffect_run (src : DataURL) (b : Bitmap) (h : gmap positive object) :
  decoded src = Some b → width b ≠ 0%nat → height b ≠ 0%nat →
  ∃ c i d out,
    (c ≠ i ∧ c ≠ d ∧ i ≠ d) ∧
    (h !! c = None ∧ h !! i = None ∧ h !! d = None) ∧
    xray_pixels (straight (drawn b)) = Some out ∧
    applyXRayEffect src h =
      Resolved (mkDataURL "image/png"
                  (Some (mkBitmap (width b) (height b) (straight (premultiplied out)))))
        (<[c := HTMLCanvasElement (mkBitmap (width b) (height b) (premultiplied out))]>
           (<[d := ImageData (mkBitmap (width b) (height b) out)]>
              (<[i := HTMLImageElement (Some b)]> h))).
Proof.
  intros Hsrc Hw Hh. unfold applyXRayEffect, createCanvas, newImage.
  rewrite bind_alloc, bind_alloc. unfold ret. rewrite Hsrc.
  set (c := fresh (dom h)).
  set (h1 := <[c := HTMLCanvasElement (blank 300 150)]> h).
  set (i := fresh (dom h1)).
  assert (h !! c = None) as Hc by apply fresh_lookup.
  assert (h1 !! i = None) as Hi by apply fresh_lookup.
  assert (c ≠ i) as Hci.
  { intros Heq. rewrite <- Heq in Hi. unfold h1 in Hi.
    by rewrite lookup_insert_eq in Hi. }
  rewrite insert_insert_eq.
  set (h3 := <[i := HTMLImageElement (Some b)]> h1).
  destruct (onload_run c i b h3 (blank 300 150)) as (d & out & Hd & Hout & Hrun);
    [done| |by apply lookup_insert_eq|done..|].
  { unfold h3, h1. rewrite lookup_insert_ne by done. apply lookup_insert_eq. }
  rewrite Hrun.
  assert (i ≠ d) as Hid.
  { intros Heq. rewrite <- Heq in Hd. unfold h3 in Hd.
    by rewrite lookup_insert_eq in Hd. }
  assert (c ≠ d) as Hcd.
  { intros Heq. rewrite <- Heq in Hd. unfold h3, h1 in Hd.
    rewrite lookup_insert_ne, lookup_insert_eq in Hd; done. }
  exists c, i, d, out. split; [done|]. split.
  { split; [done|]. split.
    - unfold h1 in Hi. by rewrite lookup_insert_ne in Hi.
    - unfold h3, h1 in Hd. by rewrite !lookup_insert_ne in Hd. }
  split; [done|]. f_equal.
  apply map_eq. intros l. unfold h3, h1.
  destruct (decide (l = c)) as [->|]; [by rewrite !lookup_insert_eq|].
  rewrite (lookup_insert_ne _ c l) by done.
  rewrite (lookup_insert_ne _ c l) by done.
  destruct (decide (l = d)) as [->|]; [by rewrite !lookup_insert_eq|].
  rewrite !(lookup_insert_ne _ d l) by done.
  destruct (decide (l = i)) as [->|]; [by rewrite !lookup_insert_eq|].
  rewrite !(lookup_insert_ne _ i l) by done.
  by rewrite lookup_insert_ne.
Qed.

(** With an image of zero width or height nothing is drawn and
    [getImageData] throws. *)
Lemma onload_zero (c i : positive) (b cb0 : Bitmap) (h : gmap positive object) :
  c ≠ i →
  h !! c = Some (HTMLCanvasElement cb0) →
  h !! i = Some (HTMLImageElement (Some b)) →
  (width b = 0 ∨ height b = 0)%nat →
  onload c i h =
    Throw IndexSizeError
      (<[c := HTMLCanvasElement (blank (width b) (height b))]> h).
Proof.
  intros Hci Hc Hi Hz. unfold onload.
  rewrite (bind_imageBitmap i b) by done.
  unfold setWidth. rewrite bind_bind, (bind_canvasBitmap c cb0) by done.
  rewrite bind_update.
  unfold setHeight. rewrite bind_bind.
  erewrite bind_canvasBitmap by (by rewrite lookup_insert_eq).
  rewrite bind_update. cbn [width height]. rewrite insert_insert_eq.
  unfold drawImage. rewrite bind_bind.
  rewrite (bind_imageBitmap i b) by (by rewrite lookup_insert_ne).
  rewrite bind_bind.
  erewrite bind_canvasBitmap by (by rewrite lookup_insert_eq).
  rewrite decide_True by done.
  unfold bind at 1. unfold ret.
  erewrite bind_canvasBitmap by (by rewrite lookup_insert_eq).
  cbn [width height blank]. unfold getImageData.
  rewrite decide_True by done. reflexivity.
Qed.

Lemma applyXRayEffect_zero (src : DataURL) (b : Bitmap) (h : gmap positive object) :
  decoded src = Some b → (width b = 0 ∨ height b = 0)%nat →
  ∃ c i,
    c ≠ i ∧ h !! c = None ∧ h !! i = None ∧
    applyXRayEffect src h =
      PendingForever
        (<[c := HTMLCanvasElement (blank (width b) (height b))]>
           (<[i := HTMLImageElement (Some b)]> h)).
Proof.
  intros Hsrc Hz. unfold applyXRayEffect, createCanvas, newImage.
  rewrite bind_alloc, bind_alloc. unfold ret. rewrite Hsrc.
  set (c := fresh (dom h)).
  set (h1 := <[c := HTMLCanvasElement (blank 300 150)]> h).
  set (i := fresh (dom h1)).
  assert (h !! c = None) as Hc by apply fresh_lookup.
  assert (h1 !! i = None) as Hi by apply fresh_lookup.
  assert (c ≠ i) as Hci.
  { intros Heq. rewrite <- Heq in Hi. unfold h1 in Hi.
    by rewrite lookup_insert_eq in Hi. }
  rewrite insert_insert_eq.
  rewrite (onload_zero c i b (blank 300 150)); [|done| |by apply lookup_insert_eq|done].
  2:{ unfold h1. rewrite lookup_insert_ne by done. apply lookup_insert_eq. }
  exists c, i. split; [done|]. split; [done|]. split.
  { unfold h1 in Hi. by rewrite lookup_insert_ne in Hi. }
  f_equal. unfold h1.
  rewrite (insert_insert_ne _ i c) by done. by rewrite insert_insert_eq.
Qed.

Lemma applyXRayEffect_undecodable (src : DataURL) (h : gmap positive object) :
  decoded src = None →
  ∃ c i,
    c ≠ i ∧ h !! c = None ∧ h !! i = None ∧
    applyXRayEffect src h =
      PendingForever
        (<[i := HTMLImageElement None]>
           (<[c := HTMLCanvasElement (blank 300 150)]> h)).
Proof.
  intros Hsrc. unfold applyXRayEffect, createCanvas, newImage.
  rewrite bind_alloc, bind_alloc. unfold ret. rewrite Hsrc.
  set (c := fresh (dom h)).
  set (h1 := <[c := HTMLCanvasElement (blank 300 150)]> h).
  set (i := fresh (dom h1)).
  assert (h !! c = None) as Hc by apply fresh_lookup.
  assert (h1 !! i = None) as Hi by apply fresh_lookup.
  assert (c ≠ i) as Hci.
  { intros Heq. rewrite <- Heq in Hi. unfold h1 in Hi.
    by rewrite lookup_insert_eq in Hi. }
  exists c, i. split; [done|]. split; [done|]. split; [|done].
  unfold h1 in Hi. by rewrite lookup_insert_ne in Hi.
Qed.

(** Objects that were in the store stay as they are when new ones are
    added. *)
Lemma insert_fresh_subseteq (h h' : gmap positive object) (l : positive) (o : object) :
  h !! l = None → h ⊆ h' → h ⊆ <[l := o]> h'.
Proof.
  intros Hl Hsub. apply map_subseteq_spec. intros k x Hk.
  rewrite lookup_insert_ne by congruence.
  by eapply map_subseteq_spec.
Qed.




(** C3, as amended.  The loop overwrites the array it is given, the one of
    the [ImageData] that [getImageData] returned: when it has run, that
    same object holds the result, which differs from what it held unless
    the array is empty, and no other object has appeared.  What is never
    written is an object that existed before the call of
    [applyXRayEffect], however the call ends: the call makes a canvas, an
    image and an [ImageData] of its own, and when the promise resolves
    these three are all that is new; the image still holds the source as
    it was decoded, and the [ImageData] the result of the loop on the
    bytes that [getImageData] copied out of the canvas. *)
Theorem applyXRayEffect_own_copy
    (src : DataURL) (h : gmap positive object)
    (h0 : gmap positive object) (d0 : positive) (b0 : Bitmap) :
  h0 !! d0 = Some (ImageData b0) →
  (∃ out h0',
     xray_pixels (pixels b0) = Some out ∧
     xrayInPlace d0 h0 = Normal tt h0' ∧
     h0' = <[d0 := ImageData (mkBitmap (width b0) (height b0) out)]> h0 ∧
     dom h0' = dom h0 ∧
     (pixels b0 ≠ [] → out ≠ pixels b0)) ∧
  match applyXRayEffect src h with
  | Resolved url h' =>
      h ⊆ h' ∧
      ∃ canvas img data b out,
        decoded src = Some b ∧
        (canvas ≠ img ∧ canvas ≠ data ∧ img ≠ data) ∧
        (h !! canvas = None ∧ h !! img = None ∧ h !! data = None) ∧
        dom h' = {[canvas; img; data]} ∪ dom h ∧
        h' !! img = Some (HTMLImageElement (Some b)) ∧
        xray_pixels (straight (drawn b)) = Some out ∧
        h' !! data = Some (ImageData (mkBitmap (width b) (height b) out))
  | PendingForever h' => h ⊆ h'
  | Unfinished => False
  end.
Proof.
  intros Hd0. split.
  - destruct (xray_pixels_spec (pixels b0)) as (out & Hout & Hlen & Hlk).
    eexists out, _. split; [done|]. split.
    { unfold xrayInPlace. rewrite (bind_imageDataBitmap d0 b0) by done.
      rewrite Hout. reflexivity. }
    split; [done|]. split.
    { apply dom_insert_lookup_L. by rewrite Hd0. }
    intros Hne Heq. destruct (pixels b0) as [|v rest] eqn:Hpx; [done|].
    specialize (Hlk 0%nat). rewrite Heq in Hlk.
    change ((v :: rest) !! 0%nat) with (Some v) in Hlk.
    rewrite decide_True in Hlk by discriminate.
    cbn [fmap option_fmap option_map] in Hlk.
    injection Hlk as Hv. symmetry in Hv. by apply channel_neq in Hv.
  - destruct (decoded src) as [b|] eqn:Hsrc.
    + destruct (decide (width b = 0 ∨ height b = 0)%nat) as [Hz|Hnz].
      * destruct (applyXRayEffect_zero src b h Hsrc Hz) as (c & i & _ & Hc & Hi & ->).
        by repeat apply insert_fresh_subseteq.
      * destruct (applyXRayEffect_run src b h Hsrc) as
          (c & i & d & out & (Hci & Hcd & Hid) & (Hc & Hi & Hd) & Hout & ->);
          [tauto..|].
        split.
        { by repeat apply insert_fresh_subseteq. }
        exists c, i, d, b, out.
        split_and!; try done.
        -- rewrite !dom_insert_L. apply set_eq. intros l.
           rewrite !elem_of_union, !elem_of_singleton. tauto.
        -- rewrite !lookup_insert_ne by done. apply lookup_insert_eq.
        -- rewrite lookup_insert_ne by done. apply lookup_insert_eq.
    + destruct (applyXRayEffect_undecodable src h Hsrc) as (c & i & _ & Hc & Hi & ->).
      by repeat apply insert_fresh_subseteq.
Qed.

Lemma applyXRayEffect_own_copy_witness :
  (one_ImageData (mkBitmap 1 1 [100; 120; 140; 255]) !! 1%positive
     = Some (ImageData (mkBitmap 1 1 [100; 120; 140; 255]))) ∧
  (∃ out h0',
     xray_pixels [100; 120; 140; 255] = Some out ∧
     xrayInPlace 1 (one_ImageData (mkBitmap 1 1 [100; 120; 140; 255]))
       = Normal tt h0' ∧
     h0' = <[1%positive := ImageData (mkBitmap 1 1 out)]>
             (one_ImageData (mkBitmap 1 1 [100; 120; 140; 255])) ∧
     dom h0' = dom (one_ImageData (mkBitmap 1 1 [100; 120; 140; 255])) ∧
     ([100; 120; 140; 255] ≠ [] → out ≠ [100; 120; 140; 255])) ∧
  match applyXRayEffect (contents fileA) ∅ with
  | Resolved url h' =>
      ∅ ⊆ h' ∧
      ∃ canvas img data b out,
        decoded (contents fileA) = Some b ∧
        (canvas ≠ img ∧ canvas ≠ data ∧ img ≠ data) ∧
        ((∅ : gmap positive object) !! canvas = None ∧
         (∅ : gmap positive object) !! img = None ∧
         (∅ : gmap positive object) !! data = None) ∧
        dom h' = {[canvas; img; data]} ∪ dom (∅ : gmap positive object) ∧
        h' !! img = Some (HTMLImageElement (Some b)) ∧
        xray_pixels (straight (drawn b)) = Some out ∧
        h' !! data = Some (ImageData (mkBitmap (width b) (height b) out))
  | PendingForever h' => ∅ ⊆ h'
  | Unfinished => False
  end.
Proof.
  split; [reflexivity|].
  exact (applyXRayEffect_own_copy (contents fileA) ∅
           (one_ImageData (mkBitmap 1 1 [100; 120; 140; 255])) 1
           (mkBitmap 1 1 [100; 120; 140; 255]) eq_refl).
Defined.

(** C3 as stated fails: the buffer that the loop is given is not the same
    after the loop, and the result is in no other buffer.  For the image of
    one pixel (100, 120, 140, 255), [getImageData] returns those four
    bytes in a new [ImageData]; after the loop that object holds
    (168, 138, 108, 255), and it is the only [ImageData] of the call. *)
Lemma xray_buffer_overwritten :
  (∃ d h1,
     (let* cb := canvasBitmap 1 in getImageData 1 (width cb) (height cb))
       (<[1%positive := HTMLCanvasElement (mkBitmap 1 1 (drawn (mkBitmap 1 1 [100; 120; 140; 255])))]> ∅)
       = Normal d h1 ∧
     h1 !! d = Some (ImageData (mkBitmap 1 1 [100; 120; 140; 255])) ∧
     ∃ h2, xrayInPlace d h1 = Normal tt h2 ∧
           h2 !! d = Some (ImageData (mkBitmap 1 1 [168; 138; 108; 255])) ∧
           dom h2 = dom h1) ∧
  (∃ url h' d,
     applyXRayEffect (contents fileA) ∅ = Resolved url h' ∧
     h' !! d = Some (ImageData (mkBitmap 1 1 [168; 138; 108; 255])) ∧
     size h' = 3%nat ∧
     ∀ l b, h' !! l = Some (ImageData b) → l = d).
Proof.
  split.
  - eexists _, _. split; [by vm_compute|]. split; [by vm_compute|].
    eexists. split; [by vm_compute|]. split; by vm_compute.
  - destruct (applyXRayEffect_run (contents fileA) (mkBitmap 1 1 [100; 120; 140; 255]) ∅)
      as (c & i & d & out & (Hci & Hcd & Hid) & (Hc & Hi & Hd) & Hout & Hrun);
      [done..|].
    assert (out = [168; 138; 108; 255]) as -> by (vm_compute in Hout; congruence).
    eexists _, _, d. split; [exact Hrun|]. split.
    { rewrite lookup_insert_ne by done. apply lookup_insert_eq. }
    split.
    { rewrite !map_size_insert_None; [by rewrite map_size_empty|..].
      - done.
      - by rewrite lookup_insert_ne.
      - by rewrite !lookup_insert_ne. }
    clear Hrun Hout. intros l b Hl.
    destruct (decide (l = c)) as [->|Hlc];
      [rewrite lookup_insert_eq in Hl; discriminate|].
    rewrite lookup_insert_ne in Hl by congruence.
    destruct (decide (l = d)) as [->|Hld]; [done|].
    rewrite lookup_insert_ne in Hl by congruence.
    destruct (decide (l = i)) as [->|Hli];
      [rewrite lookup_insert_eq in Hl; discriminate|].
    rewrite lookup_insert_ne, lookup_empty in Hl by congruence. discriminate.
Qed.

(** C6: for every source that decodes to a well-formed bitmap with pixels,
    the promise resolves with a URL whose bitmap has the width, the height
    and the number of bytes of the source, four bytes for each pixel. *)
Theorem applyXRayEffect_same_size (src : DataURL) (b : Bitmap) (h : gmap positive object) :
  decoded src = Some b → well_formed b →
  width b ≠ 0%nat → height b ≠ 0%nat →
  ∃ url h' b',
    applyXRayEffect src h = Resolved url h' ∧
    decoded url = Some b' ∧
    width b' = width b ∧ height b' = height b ∧
    length (pixels b') = length (pixels b) ∧
    length (pixels b') = (4 * width b' * height b')%nat.
Proof.
  intros Hsrc Hwf Hw Hh.
  destruct (applyXRayEffect_run src b h Hsrc Hw Hh) as
    (c & i & d & out & _ & _ & Hout & Hrun).
  destruct (xray_pixels_spec (straight (drawn b))) as (out' & Hout' & Hlen & _).
  assert (out' = out) as -> by congruence.
  rewrite length_straight, length_drawn in Hlen.
  eexists _, _, _. split; [exact Hrun|]. split; [reflexivity|].
  cbn [width height pixels]. rewrite length_straight, length_premultiplied. unfold well_formed in Hwf.
  split_and!; congruence.
Qed.

Lemma applyXRayEffect_same_size_witness :
  (decoded sample_src = Some sample_bitmap ∧ well_formed sample_bitmap ∧
   width sample_bitmap ≠ 0%nat ∧ height sample_bitmap ≠ 0%nat) ∧
  ∃ url h' b',
    applyXRayEffect sample_src ∅ = Resolved url h' ∧
    decoded url = Some b' ∧
    width b' = width sample_bitmap ∧ height b' = height sample_bitmap ∧
    length (pixels b') = length (pixels sample_bitmap) ∧
    length (pixels b') = (4 * width b' * height b')%nat.
Proof.
  split.
  - split; [reflexivity|]. split; [reflexivity|]. split; discriminate.
  - apply (applyXRayEffect_same_size sample_src sample_bitmap ∅);
      [reflexivity|reflexivity|discriminate|discriminate].
Defined.

(** X8: from the source to the URL: for a source that decodes to a
    well-formed bitmap of bytes, with pixels that are all opaque, the
    promise resolves with a URL of a bitmap of the same size whose bytes
    are those that the loop computes from the bytes of the source: on
    opaque pixels the canvas changes nothing. *)
Lemma applyXRayEffect_pixels (src : DataURL) (b : Bitmap) (h : gmap positive object) :
  decoded src = Some b → well_formed b →
  width b ≠ 0%nat → height b ≠ 0%nat →
  bytes (pixels b) → opaque (pixels b) →
  ∃ url h' out,
    applyXRayEffect src h = Resolved url h' ∧
    xray_pixels (pixels b) = Some out ∧
    decoded url = Some (mkBitmap (width b) (height b) out).
Proof.
  intros Hsrc Hwf Hw Hh Hb Hop.
  destruct (applyXRayEffect_run src b h Hsrc Hw Hh) as
    (c & i & d & out & _ & _ & Hout & Hrun).
  rewrite drawn_well_formed in Hout by done.
  rewrite premultiplied_opaque, straight_opaque in Hout by done.
  pose proof (xray_opaque _ _ Hout Hop) as Hop'.
  pose proof (xray_bytes _ _ Hout Hb) as Hb'.
  eexists _, _, out. split; [exact Hrun|]. split; [done|].
  cbn [decoded]. by rewrite premultiplied_opaque, straight_opaque.
Qed.

(** A pixel that is not opaque does not come through the canvas as it is:
    for the sample, the byte 100 of the pixel of alpha 200 is 99 in the
    array that the loop is given, and the URL has 170 where the loop on the
    bytes of the source gives 168. *)
Lemma canvas_round_trip_lossy :
  xray_pixels (pixels sample_bitmap) = Some [255; 126; 0; 77; 130; 168; 66; 200] ∧
  straight (drawn sample_bitmap) = [0; 129; 255; 77; 126; 99; 168; 200] ∧
  ∃ url h',
    applyXRayEffect sample_src ∅ = Resolved url h' ∧
    decoded url = Some (mkBitmap 2 1 [255; 126; 0; 77; 130; 170; 66; 200]).
Proof.
  split; [by vm_compute|]. split; [by vm_compute|].
  destruct (applyXRayEffect_run sample_src sample_bitmap ∅)
    as (c & i & d & out & _ & _ & Hout & Hrun); [done..|].
  assert (out = [255; 125; 0; 77; 130; 170; 66; 200]) as ->
    by (vm_compute in Hout; congruence).
  eexists _, _. split; [exact Hrun|]. by vm_compute.
Qed.

(** ** The view state *)

Section View.
Implicit Types (s : State) (e : event) (es : list event).

(** Goals about a state that shows no result and has no work in flight. *)
Local Ltac nothing_shown :=
  first [ done
        | by intros [? ?]
        | let Hin := fresh in intros ? Hin; by apply elem_of_nil in Hin ].

Lemma step_invariant e s s' :
  ¬ interrupts e s → step e s = Some s' →
  results_current s ∧ in_flight_current s →
  results_current s' ∧ in_flight_current s'.
Proof.
  unfold results_current, in_flight_current, current.
  intros Hint Hstep [[Hp Ha] [Haw Ht]].
  destruct e as [file|k| |k|r1 r2| ]; cbn in Hstep.
  - (* Change *)
    injection Hstep as <-. by destruct file.
  - (* ReaderLoad *)
    destruct (readers s !! k) as [result|]; [|done].
    injection Hstep as <-. cbn in Hint.
    destruct (decide (awaited s = [])) as [Hnil|]; [|exfalso; apply Hint; by intros []].
    destruct (decide (timers s = 0%nat)) as [Hz|]; [|exfalso; apply Hint; by intros []].
    cbn. rewrite Hnil, Hz. split_and!; nothing_shown.
  - (* ClickProcess *)
    destruct (isProcessing s); [done|].
    destruct (selectedImage s) as [src|] eqn:Hsel; [|done].
    injection Hstep as <-. unfold processImage. rewrite Hsel. cbn.
    rewrite ?Hsel. split_and!; try done.
    intros src' [Hin|Hin]%elem_of_app; [by apply Haw|].
    apply list_elem_of_singleton in Hin. by subst.
  - (* XrayResolved *)
    destruct (awaited s !! k) as [src|] eqn:Hk; [|done]. cbn in Hstep.
    destruct (xrayImage_of src) as [url|] eqn:Hurl; [|done].
    injection Hstep as <-. cbn.
    assert (selectedImage s = Some src) as Hsel.
    { apply Haw. by eapply list_elem_of_lookup_2. }
    rewrite ?Hsel in *. cbn. rewrite Hurl. split_and!; try done.
    intros src' Hin. apply Haw. by eapply list_elem_of_delete_inv.
  - (* Timeout *)
    destruct (timers s) as [|n] eqn:Hn; [done|].
    injection Hstep as <-. cbn.
    destruct Ht as [Hsome Hcur]; [done|]. by split_and!.
  - (* ClickReset *)
    destruct (selectedImage s) as [src|]; [|done].
    injection Hstep as <-. cbn in Hint.
    destruct (decide (awaited s = [])) as [Hnil|]; [|exfalso; apply Hint; by intros []].
    destruct (decide (timers s = 0%nat)) as [Hz|]; [|exfalso; apply Hint; by intros []].
    cbn. rewrite Hnil, Hz. split_and!; nothing_shown.
Qed.

Lemma run_invariant es : ∀ s s',
  uninterrupted es s → run es s = Some s' →
  results_current s ∧ in_flight_current s →
  results_current s' ∧ in_flight_current s'.
Proof.
  induction es as [|e es IH]; intros s s' Hun Hrun Hinv; cbn in *.
  - by injection Hrun as <-.
  - destruct Hun as [Hint Hun].
    destruct (step e s) as [s1|] eqn:Hstep; [|done]. cbn in Hrun.
    eapply IH; [exact Hun|exact Hrun|].
    by eapply step_invariant.
Qed.

Lemma init_invariant : results_current init ∧ in_flight_current init.
Proof.
  unfold results_current, in_flight_current. cbn. split_and!; nothing_shown.
Qed.

End View.

(** C10, as amended: when [reader.onload] of [handleImageUpload] has run,
    the new image is selected and [processedImage] and [analysisResult] are
    null; when [resetProcessor] has run, [selectedImage], [processedImage]
    and [analysisResult] are null; and in every run from the initial state
    in which no upload and no reset happens while a call of [processImage] is
    in flight, a processed image or an analysis on display is that of the
    selected image. *)
Theorem results_cleared_and_current :
  (∀ result s,
     selectedImage (reader_onload result s) = Some result ∧
     processedImage (reader_onload result s) = None ∧
     analysisResult (reader_onload result s) = None) ∧
  (∀ s,
     selectedImage (resetProcessor s) = None ∧
     processedImage (resetProcessor s) = None ∧
     analysisResult (resetProcessor s) = None) ∧
  (∀ es s,
     uninterrupted es init → run es init = Some s → results_current s).
Proof.
  split; [done|]. split; [done|].
  intros es s Hun Hrun.
  by apply (run_invariant es init s Hun Hrun init_invariant).
Qed.

Lemma results_cleared_and_current_witness :
  uninterrupted one_image init ∧
  ∃ s, run one_image init = Some s ∧
       is_Some (processedImage s) ∧ is_Some (analysisResult s) ∧
       results_current s.
Proof.
  assert (uninterrupted one_image init) as Hun.
  { vm_compute. repeat split; try tauto; intros Hn; apply Hn; by split. }
  split; [exact Hun|].
  eexists. split; [by vm_compute|].
  split; [by eexists|]. split; [by eexists|].
  apply (proj2 (proj2 results_cleared_and_current) one_image _ Hun).
  by vm_compute.
Defined.

(** C10 as stated fails.  A reader that fires after "Process Image" was
    clicked leaves the processed image and the analysis of the first file
    next to the second file; a reset before the timer fires leaves an
    analysis and no selected image. *)
Lemma stale_results :
  (∃ s, run late_reader init = Some s ∧
        selectedImage s = Some (contents fileB) ∧
        processedImage s = xrayImage_of (contents fileA) ∧
        processedImage s ≠ xrayImage_of (contents fileB) ∧
        is_Some (analysisResult s) ∧
        ¬ results_current s) ∧
  (∃ s, run reset_before_timer init = Some s ∧
        selectedImage s = None ∧
        is_Some (analysisResult s) ∧
        ¬ results_current s).
Proof.
  split.
  - eexists. split; [by vm_compute|].
    split; [by vm_compute|]. split; [by vm_compute|].
    split; [by vm_compute|]. split; [by eexists|].
    intros [Hp _]. specialize (Hp ltac:(by eexists)).
    vm_compute in Hp. discriminate.
  - eexists. split; [by vm_compute|].
    split; [by vm_compute|]. split; [by eexists|].
    intros [_ Ha]. destruct (Ha ltac:(by eexists)) as [[p Hp] _].
    vm_compute in Hp. discriminate.
Qed.

(** ** Binary64 rounding and the mock confidence *)

Section Binary64.
Local Open Scope Q_scope.
Import JS.

Lemma pow2_pos e : 0 < pow2 e.
Proof. by apply Qpower_0_lt. Qed.

Lemma pow2_le a b : (a ≤ b)%Z → pow2 a <= pow2 b.
Proof. intros H. by apply Qpower_le_compat_l. Qed.

Lemma pow2_lt_inv a b : pow2 a < pow2 b → (a < b)%Z.
Proof. intros H. by apply (Qpower_lt_compat_l_inv (2 # 1)). Qed.

Lemma pow2_nonneg_Z k : (0 ≤ k)%Z → pow2 k == inject_Z (2 ^ k).
Proof. intros H. unfold pow2. by rewrite Zpower_Qpower. Qed.

Lemma pow2_sub a b : pow2 (a - b) == pow2 a / pow2 b.
Proof. unfold pow2. by rewrite Qpower_minus. Qed.

Lemma frac_le (A B n : Z) (d : positive) :
  (0 < B)%Z → (A * Z.pos d ≤ n * B)%Z → inject_Z A / inject_Z B <= n # d.
Proof.
  intros HB H. destruct B as [|p|p]; try lia.
  unfold Qle, Qdiv, Qmult, Qinv. cbn. lia.
Qed.

Lemma frac_lt (A B n : Z) (d : positive) :
  (0 < B)%Z → (n * B < A * Z.pos d)%Z → n # d < inject_Z A / inject_Z B.
Proof.
  intros HB H. destruct B as [|p|p]; try lia.
  unfold Qlt, Qdiv, Qmult, Qinv. cbn. lia.
Qed.

Lemma ilog2_lower q : 0 < q → pow2 (ilog2 q) <= q.
Proof.
  intros Hq. unfold ilog2.
  destruct (Qle_bool _ q) eqn:Hb; [by apply Qle_bool_iff|].
  destruct q as [n d]. cbn [Qnum Qden] in *.
  assert (0 < n)%Z as Hn by (unfold Qlt in Hq; cbn in Hq; lia).
  replace (Z.log2 n - Z.log2 (Z.pos d) - 1)%Z
    with (Z.log2 n - (Z.log2 (Z.pos d) + 1))%Z by lia.
  pose proof (Z.log2_nonneg n). pose proof (Z.log2_nonneg (Z.pos d)).
  rewrite pow2_sub, !pow2_nonneg_Z by lia.
  pose proof (Z.log2_spec n Hn) as [Hn1 _].
  pose proof (Z.log2_spec (Z.pos d) ltac:(lia)) as [_ Hd2].
  rewrite <- Z.add_1_r in Hd2.
  apply frac_le; [lia|]. nia.
Qed.

Lemma ilog2_upper q : 0 < q → q < pow2 (ilog2 q + 1).
Proof.
  intros Hq. unfold ilog2.
  destruct (Qle_bool _ q) eqn:Hb.
  - destruct q as [n d]. cbn [Qnum Qden] in *.
    assert (0 < n)%Z as Hn by (unfold Qlt in Hq; cbn in Hq; lia).
    replace (Z.log2 n - Z.log2 (Z.pos d) + 1)%Z
      with (Z.log2 n + 1 - Z.log2 (Z.pos d))%Z by lia.
    pose proof (Z.log2_nonneg n). pose proof (Z.log2_nonneg (Z.pos d)).
    rewrite pow2_sub, !pow2_nonneg_Z by lia.
    pose proof (Z.log2_spec n Hn) as [_ Hn2].
    pose proof (Z.log2_spec (Z.pos d) ltac:(lia)) as [Hd1 _].
    rewrite <- Z.add_1_r in Hn2.
    apply frac_lt; [lia|]. nia.
  - replace (Z.log2 (Qnum q) - Z.log2 (Z.pos (Qden q)) - 1 + 1)%Z
      with (Z.log2 (Qnum q) - Z.log2 (Z.pos (Qden q)))%Z by lia.
    apply Qnot_le_lt. intros Hle. apply Qle_bool_iff in Hle. congruence.
Qed.

Lemma Qabs_pos_eq q : 0 < q → Qabs q = q.
Proof.
  destruct q as [n d]. unfold Qlt, Qabs. cbn. intros H.
  f_equal. apply Z.abs_eq. lia.
Qed.

(** A positive value below [2^(k+1)] has an exponent of at most [k]. *)
Lemma exponent_le q k :
  0 < q → q < pow2 (k + 1) → (-1022 ≤ k)%Z → (exponent q ≤ k)%Z.
Proof.
  intros Hq Hlt Hk. unfold exponent. rewrite Qabs_pos_eq by done.
  pose proof (ilog2_lower q Hq) as Hlow.
  assert (ilog2 q < k + 1)%Z.
  { apply pow2_lt_inv. by eapply Qle_lt_trans. }
  lia.
Qed.

Lemma round_half_even_error y :
  y - (1 # 2) <= inject_Z (round_half_even y)
  ∧ inject_Z (round_half_even y) <= y + (1 # 2).
Proof.
  unfold round_half_even.
  pose proof (Qfloor_le y) as Hlo. pose proof (Qlt_floor y) as Hhi.
  rewrite inject_Z_plus in Hhi. change (inject_Z 1) with 1 in Hhi.
  destruct (Qcompare y _) eqn:Hc.
  - apply Qeq_alt in Hc. destruct (Z.even (Qfloor y)).
    + split; lra.
    + rewrite inject_Z_plus. change (inject_Z 1) with 1. split; lra.
  - apply Qlt_alt in Hc. split; lra.
  - apply Qgt_alt in Hc. rewrite inject_Z_plus. change (inject_Z 1) with 1.
    split; lra.
Qed.

Lemma round_half_even_nonneg y : 0 <= y → (0 ≤ round_half_even y)%Z.
Proof.
  intros Hy. unfold round_half_even.
  assert (0 ≤ Qfloor y)%Z.
  { rewrite <- (Qfloor_Z 0). by apply Qfloor_resp_le. }
  destruct (Qcompare y _); [destruct (Z.even _)|..]; lia.
Qed.

Lemma b64_eq q :
  ¬ q == 0 → b64 q == inject_Z (round_half_even (q / ulp q)) * ulp q.
Proof.
  intros Hq. unfold b64.
  destruct (Qeq_bool q 0) eqn:Hb; [by apply Qeq_bool_iff in Hb|].
  apply Qred_correct.
Qed.

Lemma ulp_pos q : 0 < ulp q.
Proof. apply pow2_pos. Qed.

Lemma b64_nonneg q : 0 <= q → 0 <= b64 q.
Proof.
  intros Hq. unfold b64. destruct (Qeq_bool q 0); [lra|].
  rewrite Qred_correct. apply Qmult_le_0_compat.
  - change 0 with (inject_Z 0). rewrite <- Zle_Qle.
    apply round_half_even_nonneg. apply Qle_shift_div_l; [apply ulp_pos|lra].
  - apply Qlt_le_weak, ulp_pos.
Qed.

(** Rounding moves a value by half a unit in the last place at most. *)
Lemma b64_error q :
  q - ulp q * (1 # 2) <= b64 q ∧ b64 q <= q + ulp q * (1 # 2).
Proof.
  pose proof (ulp_pos q) as Hu.
  destruct (Qeq_dec q 0) as [Hz|Hnz].
  - unfold b64. destruct (Qeq_bool q 0) eqn:Hb.
    + split; lra.
    + apply Qeq_bool_neq in Hb. done.
  - rewrite (b64_eq q Hnz).
    destruct (round_half_even_error (q / ulp q)) as [Hlo Hhi].
    assert ((q / ulp q - (1 # 2)) * ulp q == q - ulp q * (1 # 2)) as Elo.
    { field. lra. }
    assert ((q / ulp q + (1 # 2)) * ulp q == q + ulp q * (1 # 2)) as Ehi.
    { field. lra. }
    rewrite <- Elo, <- Ehi.
    split; (apply Qmult_le_compat_r; [done|lra]).
Qed.

(** The largest binary64 value below 1. *)
Lemma binary64_below_1 r :
  is_binary64 r → 0 <= r → r < 1 → r <= 9007199254740991 # 9007199254740992.
Proof.
  intros Hb H0 H1.
  destruct (Qeq_dec r 0) as [Hz|Hnz]; [rewrite Hz; by compute|].
  assert (0 < r) as Hpos by lra.
  unfold is_binary64 in Hb. rewrite (b64_eq r Hnz) in Hb.
  assert (exponent r ≤ -1)%Z as He.
  { apply exponent_le; [done| |lia]. by change (pow2 (-1 + 1)) with 1. }
  destruct (decide (exponent r = (-1)%Z)) as [Heq|Hne].
  - unfold ulp in Hb. rewrite Heq in Hb.
    change (pow2 (-1 - 52)) with (1 # 9007199254740992) in Hb.
    set (m := round_half_even _) in Hb.
    assert (m < 9007199254740992)%Z as Hm.
    { apply Z.lt_nge. intros Hge. rewrite Zle_Qle in Hge.
      change (inject_Z 9007199254740992) with 9007199254740992 in Hge. lra. }
    assert (m ≤ 9007199254740991)%Z as Hm' by lia.
    rewrite Zle_Qle in Hm'.
    change (inject_Z 9007199254740991) with 9007199254740991 in Hm'. lra.
  - assert (ilog2 r ≤ -2)%Z as Hl.
    { unfold exponent in He, Hne. rewrite Qabs_pos_eq in * by done. lia. }
    pose proof (ilog2_upper r Hpos) as Hup.
    pose proof (pow2_le (ilog2 r + 1) (-1) ltac:(lia)) as Hle.
    change (pow2 (-1)) with (1 # 2) in Hle. lra.
Qed.

(** The product of a value of [Math.random()] and 40 rounds below 40. *)
Lemma b64_times_40 r :
  0 <= r → r <= 9007199254740991 # 9007199254740992 →
  0 <= b64 (r * 40) ∧ b64 (r * 40) < 40.
Proof.
  intros H0 H1. split; [apply b64_nonneg; lra|].
  destruct (Qeq_dec r 0) as [Hz|Hnz].
  { assert (b64 (r * 40) == 0) as ->; [|done].
    unfold b64. destruct (Qeq_bool (r * 40) 0) eqn:Hb; [done|].
    apply Qeq_bool_neq in Hb. exfalso. apply Hb. rewrite Hz. ring. }
  assert (0 < r * 40) as Hpos by lra.
  assert (exponent (r * 40) ≤ 5)%Z as He.
  { apply exponent_le; [done| |lia]. change (pow2 (5 + 1)) with 64. lra. }
  pose proof (b64_error (r * 40)) as [_ Hhi].
  pose proof (pow2_le (exponent (r * 40) - 52) (-47) ltac:(lia)) as Hu.
  fold (ulp (r * 40)) in Hu.
  change (pow2 (-47)) with (1 # 140737488355328) in Hu.
  lra.
Qed.
End Binary64.

(** Adding 60 to an integer from 0 to 39 is exact. *)
Lemma b64_add_60 (k : Z) :
  0 ≤ k ≤ 39 → JS.b64 (inject_Z k + inject_Z 60) = inject_Z (k + 60).
Proof.
  intros Hk.
  pose proof (all_bytes_spec
    (fun v => (39 <? v) ||
              bool_decide (JS.b64 (inject_Z v + inject_Z 60) = inject_Z (v + 60))))
    as Hall.
  specialize (Hall ltac:(by vm_compute) k ltac:(lia)). cbv beta in Hall.
  apply orb_true_iff in Hall as [Hgt|Heq]; [lia|].
  by apply bool_decide_eq_true in Heq.
Qed.

(** C9: for every value [r] that [Math.random()] can return, a binary64
    value with [0 <= r < 1], the mock confidence
    [Math.floor(r * 40) + 60] is an integer from 60 to 99. *)
Theorem mock_confidence_range (r : Q) :
  random_value r →
  ∃ c : Z, mock_confidence (JS.Fin r) = JS.of_Z c ∧ 60 ≤ c ≤ 99.
Proof.
  intros (Hb & H0 & H1).
  pose proof (binary64_below_1 r Hb H0 H1) as Hmax.
  destruct (b64_times_40 r H0 Hmax) as [Hlo Hhi].
  unfold mock_confidence, JS.of_Z.
  cbn [JS.mul JS.add JS.lift2 JS.Math_floor].
  change (inject_Z 40) with 40%Q.
  set (k := Qfloor (JS.b64 (r * 40))).
  assert (0 ≤ k ≤ 39) as Hk.
  { split.
    - rewrite <- (Qfloor_Z 0). by apply Qfloor_resp_le.
    - pose proof (Qfloor_le (JS.b64 (r * 40))) as Hfl. fold k in Hfl.
      assert (k < 40); [|lia]. rewrite Zlt_Qlt.
      change (inject_Z 40) with 40%Q. by eapply Qle_lt_trans. }
  exists (k + 60). split; [|lia]. f_equal. by apply b64_add_60.
Qed.

Lemma mock_confidence_range_witness :
  random_value (9007199254740991 # 9007199254740992) ∧
  ∃ c : Z,
    mock_confidence (JS.Fin (9007199254740991 # 9007199254740992)) = JS.of_Z c ∧
    60 ≤ c ≤ 99.
Proof.
  assert (random_value (9007199254740991 # 9007199254740992)) as Hr.
  { split; [by vm_compute|]. split; by vm_compute. }
  split; [exact Hr|].
  apply (mock_confidence_range (9007199254740991 # 9007199254740992) Hr).
Defined.

(** The largest value of [Math.random()] gives 99.  A rational closer to
    1, which is not a binary64 value, would round to 40 in the product and
    give 100: the bound rests on the values that [Math.random()] can
    return. *)
Lemma mock_confidence_extremes :
  mock_confidence (JS.Fin 0) = JS.of_Z 60 ∧
  mock_confidence (JS.Fin (9007199254740991 # 9007199254740992)) = JS.of_Z 99 ∧
  ¬ JS.is_binary64 (1152921504606846975 # 1152921504606846976) ∧
  mock_confidence (JS.Fin (1152921504606846975 # 1152921504606846976)) = JS.of_Z 100.
Proof. split_and!; by vm_compute. Qed.

(** * Further properties *)

(** ** The loop as a map *)

(** The loop that updates the array in place computes the index-wise map. *)
Lemma xray_pixels_imap (data : list Z) : xray_pixels data = Some (xray_map data).
Proof.
  destruct (xray_pixels_spec data) as (out & Hout & _ & Hlk).
  rewrite Hout. f_equal. apply list_eq. intros j. unfold xray_map.
  rewrite Hlk, list_lookup_imap.
  destruct (data !! j) as [v|]; [|by case_decide].
  cbn [fmap option_fmap option_map]. by case_decide.
Qed.

Lemma lookup_xray_map_colour (data : list Z) (i : nat) (v : Z) :
  (i mod 4 ≠ 3)%nat → data !! i = Some v → xray_map data !! i = Some (channel v).
Proof.
  intros Hi Hv. unfold xray_map. rewrite list_lookup_imap, Hv.
  cbn [fmap option_fmap option_map]. by rewrite decide_True.
Qed.

Lemma xray_map_app (a b : list Z) :
  (length a mod 4 = 0)%nat → xray_map (a ++ b) = xray_map a ++ xray_map b.
Proof.
  intros Ha. unfold xray_map. rewrite imap_app. f_equal.
  apply imap_ext. intros j v _. unfold compose.
  replace ((length a + j) mod 4)%nat with (j mod 4)%nat; [done|].
  apply Nat.Div0.div_exact in Ha. rewrite Ha at 1.
  rewrite (Nat.mul_comm 4), Nat.add_comm. by rewrite Nat.Div0.mod_add.
Qed.

(** X1: whole pixels are transformed independently of what follows them:
    the transform of a buffer of whole pixels followed by any buffer is the
    transform of the first followed by the transform of the second. *)
Theorem xray_pixels_app (a b : list Z) :
  (length a mod 4 = 0)%nat →
  ∃ oa ob, xray_pixels a = Some oa ∧ xray_pixels b = Some ob ∧
           xray_pixels (a ++ b) = Some (oa ++ ob).
Proof.
  intros Ha. exists (xray_map a), (xray_map b).
  rewrite !xray_pixels_imap. split; [done|]. split; [done|].
  f_equal. by apply xray_map_app.
Qed.

Lemma xray_pixels_app_witness :
  (length [10; 20; 30; 40] mod 4 = 0)%nat ∧
  ∃ oa ob, xray_pixels [10; 20; 30; 40] = Some oa ∧
           xray_pixels [50; 60; 70; 80; 90] = Some ob ∧
           xray_pixels ([10; 20; 30; 40] ++ [50; 60; 70; 80; 90]) = Some (oa ++ ob).
Proof.
  split; [reflexivity|].
  apply (xray_pixels_app [10; 20; 30; 40] [50; 60; 70; 80; 90]). reflexivity.
Defined.

(** ** The channel function on bytes *)

Lemma channel_step_down (v : Z) : 0 ≤ v < 255 → channel (v + 1) ≤ channel v.
Proof.
  intros Hv. apply Z.leb_le.
  pose proof (all_bytes_spec
    (fun v => (255 <=? v) || (channel (v + 1) <=? channel v))) as Hall.
  specialize (Hall ltac:(by vm_compute) v ltac:(lia)). cbv beta in Hall.
  apply orb_true_iff in Hall as [Hge|Hle]; [lia|done].
Qed.

Lemma channel_antitone (v w : Z) : 0 ≤ v → v ≤ w → w ≤ 255 → channel w ≤ channel v.
Proof.
  intros H0 Hvw Hw. 
  replace w with (v + Z.of_nat (Z.to_nat (w - v))) in * by lia.
  induction (Z.to_nat (w - v)) as [|n IH].
  - replace (v + Z.of_nat 0) with v by lia. lia.
  - etrans; [|apply IH; lia].
    replace (v + Z.of_nat (S n)) with (v + Z.of_nat n + 1) by lia.
    apply channel_step_down. lia.
Qed.

(** X2: the transform reverses the order of brightness: of two colour bytes
    of a buffer, the one that was not darker is not brighter in the
    result. *)
Theorem xray_reverses_order (data : list Z) (i j : nat) (v w : Z) :
  (i mod 4 ≠ 3)%nat → (j mod 4 ≠ 3)%nat →
  data !! i = Some v → data !! j = Some w →
  0 ≤ v → v ≤ w → w ≤ 255 →
  ∃ out a b, xray_pixels data = Some out ∧
             out !! i = Some a ∧ out !! j = Some b ∧ b ≤ a.
Proof.
  intros Hi Hj Hv Hw H0 Hvw H255.
  exists (xray_map data), (channel v), (channel w).
  split; [apply xray_pixels_imap|].
  split; [by apply lookup_xray_map_colour|].
  split; [by apply lookup_xray_map_colour|].
  by apply channel_antitone.
Qed.

Lemma xray_reverses_order_witness :
  ((0 mod 4 ≠ 3)%nat ∧ (5 mod 4 ≠ 3)%nat ∧
   [60; 0; 0; 255; 0; 180; 0; 255] !! 0%nat = Some 60 ∧
   [60; 0; 0; 255; 0; 180; 0; 255] !! 5%nat = Some 180 ∧
   0 ≤ 60 ∧ 60 ≤ 180 ∧ 180 ≤ 255) ∧
  ∃ out a b, xray_pixels [60; 0; 0; 255; 0; 180; 0; 255] = Some out ∧
             out !! 0%nat = Some a ∧ out !! 5%nat = Some b ∧ b ≤ a.
Proof.
  split.
  - split; [discriminate|]. split; [discriminate|].
    split; [reflexivity|]. split; [reflexivity|]. lia.
  - apply (xray_reverses_order [60; 0; 0; 255; 0; 180; 0; 255] 0 5 60 180);
      [discriminate|discriminate|reflexivity|reflexivity|lia|lia|lia].
Defined.

Lemma channel_saturation_check (v : Z) :
  0 ≤ v ≤ 255 →
  (channel v = 255 ↔ v ≤ 42) ∧ (channel v = 0 ↔ 212 ≤ v).
Proof.
  intros Hv.
  pose proof (all_bytes_spec
    (fun v => bool_decide (channel v = 255 ↔ v ≤ 42) &&
              bool_decide (channel v = 0 ↔ 212 ≤ v))) as Hall.
  specialize (Hall ltac:(by vm_compute) v Hv). cbv beta in Hall.
  apply andb_true_iff in Hall as [H1 H2].
  split; by eapply bool_decide_eq_true.
Qed.

(** X3: the contrast stretch saturates: a colour byte of the result is 255
    exactly when the byte of the input was at most 42, and 0 exactly when
    it was at least 212. *)
Theorem xray_saturates (data : list Z) (i : nat) (v : Z) :
  (i mod 4 ≠ 3)%nat → data !! i = Some v → 0 ≤ v ≤ 255 →
  ∃ out c, xray_pixels data = Some out ∧ out !! i = Some c ∧
           (c = 255 ↔ v ≤ 42) ∧ (c = 0 ↔ 212 ≤ v).
Proof.
  intros Hi Hv Hbyte. exists (xray_map data), (channel v).
  split; [apply xray_pixels_imap|].
  split; [by apply lookup_xray_map_colour|].
  by apply channel_saturation_check.
Qed.

Lemma xray_saturates_witness :
  ((1 mod 4 ≠ 3)%nat ∧ [0; 42; 212; 255] !! 1%nat = Some 42 ∧ 0 ≤ 42 ≤ 255) ∧
  ∃ out c, xray_pixels [0; 42; 212; 255] = Some out ∧ out !! 1%nat = Some c ∧
           (c = 255 ↔ 42 ≤ 42) ∧ (c = 0 ↔ 212 ≤ 42).
Proof.
  split.
  - split; [discriminate|]. split; [reflexivity|lia].
  - apply (xray_saturates [0; 42; 212; 255] 1 42); [discriminate|reflexivity|lia].
Defined.

(** X4: the transform changes every colour byte: no byte value is mapped
    to itself. *)
Theorem xray_changes_colour (data : list Z) (i : nat) (v : Z) :
  (i mod 4 ≠ 3)%nat → data !! i = Some v → 0 ≤ v ≤ 255 →
  ∃ out c, xray_pixels data = Some out ∧ out !! i = Some c ∧ c ≠ v.
Proof.
  intros Hi Hv Hbyte. exists (xray_map data), (channel v).
  split; [apply xray_pixels_imap|].
  split; [by apply lookup_xray_map_colour|].
  by apply channel_moves.
Qed.

Lemma xray_changes_colour_witness :
  ((2 mod 4 ≠ 3)%nat ∧ [127; 128; 129; 255] !! 2%nat = Some 129 ∧ 0 ≤ 129 ≤ 255) ∧
  ∃ out c, xray_pixels [127; 128; 129; 255] = Some out ∧
           out !! 2%nat = Some c ∧ c ≠ 129.
Proof.
  split.
  - split; [discriminate|]. split; [reflexivity|lia].
  - apply (xray_changes_colour [127; 128; 129; 255] 2 129);
      [discriminate|reflexivity|lia].
Defined.

(** The stretch of the byte 128 is exact. *)
Lemma raw_value_exact_witness :
  0 ≤ 128 ≤ 255 ∧ ∃ q, raw_value 128 = JS.Fin q ∧ (q == spec_raw 128)%Q.
Proof. split; [lia|]. apply (raw_value_exact 128). lia. Defined.

(** X6: two runs of the transform give a colour byte back exactly when it
    is 0 or 255. *)
Theorem xray_twice_restores (data : list Z) (i : nat) (v : Z) :
  (i mod 4 ≠ 3)%nat → data !! i = Some v → 0 ≤ v ≤ 255 →
  ∃ once twice,
    xray_pixels data = Some once ∧ xray_pixels once = Some twice ∧
    (twice !! i = Some v ↔ v = 0 ∨ v = 255).
Proof.
  intros Hi Hv Hbyte. exists (xray_map data), (xray_map (xray_map data)).
  split; [apply xray_pixels_imap|]. split; [apply xray_pixels_imap|].
  rewrite (lookup_xray_map_colour (xray_map data) i (channel v) Hi)
    by by apply lookup_xray_map_colour.
  rewrite <- (channel_twice v Hbyte). split; [by intros [= ?]|by intros ->].
Qed.

Lemma xray_twice_restores_witness :
  ((0 mod 4 ≠ 3)%nat ∧ [100; 0; 255; 7] !! 0%nat = Some 100 ∧ 0 ≤ 100 ≤ 255) ∧
  ∃ once twice,
    xray_pixels [100; 0; 255; 7] = Some once ∧ xray_pixels once = Some twice ∧
    (twice !! 0%nat = Some 100 ↔ 100 = 0 ∨ 100 = 255).
Proof.
  split.
  - split; [discriminate|]. split; [reflexivity|lia].
  - apply (xray_twice_restores [100; 0; 255; 7] 0 100);
      [discriminate|reflexivity|lia].
Defined.

(** ** The promise of [applyXRayEffect] *)

Lemma usable_dec (src : DataURL) : usable src ∨ ¬ usable src.
Proof.
  unfold usable. destruct (decoded src) as [b|]; [|right; by intros (? & ? & _)].
  destruct (decide (width b = 0%nat)) as [Hw|Hw].
  { right. intros (b' & [= <-] & ? & ?). done. }
  destruct (decide (height b = 0%nat)) as [Hh|Hh].
  { right. intros (b' & [= <-] & ? & ?). done. }
  left. eauto.
Qed.

Lemma applyXRayEffect_cases (src : DataURL) (h : gmap positive object) :
  (usable src ∧ ∃ url h', applyXRayEffect src h = Resolved url h') ∨
  (¬ usable src ∧ ∃ h', applyXRayEffect src h = PendingForever h').
Proof.
  destruct (usable_dec src) as [Hu|Hu].
  - left. split; [done|]. destruct Hu as (b & Hb & Hw & Hh).
    destruct (applyXRayEffect_run src b h Hb Hw Hh) as (c & i & d & out & _ & _ & _ & Hrun).
    eauto.
  - right. split; [done|]. destruct (decoded src) as [b|] eqn:Hb.
    + destruct (applyXRayEffect_zero src b h Hb) as (c & i & _ & _ & _ & Hrun).
      { destruct (decide (width b = 0%nat)); [by left|].
        destruct (decide (height b = 0%nat)); [by right|].
        exfalso. apply Hu. exists b. done. }
      eauto.
    + destruct (applyXRayEffect_undecodable src h Hb) as (c & i & _ & _ & _ & Hrun).
      eauto.
Qed.

(** X7: the promise of [applyXRayEffect] is resolved exactly for a source
    that decodes to an image of non-zero width and height; for every other
    source it stays pending for ever (it is never rejected). *)
Theorem applyXRayEffect_settles (src : DataURL) (h : gmap positive object) :
  ((∃ url h', applyXRayEffect src h = Resolved url h') ↔ usable src) ∧
  ((∃ h', applyXRayEffect src h = PendingForever h') ↔ ¬ usable src).
Proof.
  destruct (applyXRayEffect_cases src h) as [[Hu (url & h' & Hr)]|[Hu (h' & Hr)]].
  - split; split; try eauto.
    + intros (h'' & Hp). congruence.
    + done.
  - split; split; try eauto.
    + intros (url & h'' & Hp). congruence.
    + done.
Qed.

Lemma applyXRayEffect_pixels_witness :
  (decoded opaque_src = Some opaque_bitmap ∧ well_formed opaque_bitmap ∧
   width opaque_bitmap ≠ 0%nat ∧ height opaque_bitmap ≠ 0%nat ∧
   bytes (pixels opaque_bitmap) ∧ opaque (pixels opaque_bitmap)) ∧
  ∃ url h' out,
    applyXRayEffect opaque_src ∅ = Resolved url h' ∧
    xray_pixels (pixels opaque_bitmap) = Some out ∧
    decoded url =
      Some (mkBitmap (width opaque_bitmap) (height opaque_bitmap) out).
Proof.
  assert (bytes (pixels opaque_bitmap)) as Hb.
  { unfold bytes. cbn. repeat constructor; lia. }
  assert (opaque (pixels opaque_bitmap)) as Hop.
  { intros k Hk. cbn in Hk. do 8 (destruct k as [|k]; [reflexivity|]). lia. }
  split.
  - split; [reflexivity|]. split; [reflexivity|].
    split; [discriminate|]. split; [discriminate|]. by split.
  - apply (applyXRayEffect_pixels opaque_src opaque_bitmap ∅);
      [reflexivity|reflexivity|discriminate|discriminate|exact Hb|exact Hop].
Defined.

Lemma applyXRayEffect_url (src : DataURL) (b : Bitmap) (h : gmap positive object) :
  decoded src = Some b → width b ≠ 0%nat → height b ≠ 0%nat →
  ∃ out h',
    xray_pixels (straight (drawn b)) = Some out ∧
    applyXRayEffect src h =
      Resolved (mkDataURL "image/png"
                  (Some (mkBitmap (width b) (height b) (straight (premultiplied out)))))
               h'.
Proof.
  intros Hb Hw Hh.
  destruct (applyXRayEffect_run src b h Hb Hw Hh) as (c & i & d & out & _ & _ & Hout & Hrun).
  eauto.
Qed.

(** X9: what the promise resolves with depends on the source alone, not on
    the objects that exist when [applyXRayEffect] is called. *)
Theorem applyXRayEffect_any_store (src : DataURL) (h : gmap positive object) (url : DataURL) :
  (∃ h', applyXRayEffect src h = Resolved url h') ↔ xrayImage_of src = Some url.
Proof.
  unfold xrayImage_of.
  destruct (applyXRayEffect_cases src h) as [[Hu (u1 & h1 & Hr)]|[Hu (h1 & Hr)]].
  - destruct Hu as (b & Hb & Hw & Hh).
    destruct (applyXRayEffect_url src b h Hb Hw Hh) as (o1 & h1' & Ho1 & Hr1).
    destruct (applyXRayEffect_url src b ∅ Hb Hw Hh) as (o2 & h2' & Ho2 & Hr2).
    assert (o1 = o2) as -> by congruence.
    rewrite Hr1, Hr2. split.
    + intros (h' & [= <- _]). done.
    + intros [= <-]. eauto.
  - destruct (applyXRayEffect_cases src ∅) as [[Hu' _]|[_ (h2 & Hr2)]]; [done|].
    rewrite Hr, Hr2. split; [by intros (? & ?)|done].
Qed.

(** ** The calls of [processImage] in flight *)

Section Flight.
Implicit Types (s : State) (e : event) (es : list event).

Lemma length_delete_lookup {A} (l : list A) k x :
  l !! k = Some x → length l = S (length (delete k l)).
Proof.
  intros Hk. rewrite length_delete by eauto.
  apply lookup_lt_Some in Hk. lia.
Qed.

Lemma step_single_flight e s s' :
  step e s = Some s' → single_flight s → single_flight s'.
Proof.
  unfold single_flight, in_flight. intros Hstep [Hle Hiff].
  destruct e as [file|k| |k|r1 r2| ]; cbn in Hstep.
  - injection Hstep as <-. by destruct file.
  - destruct (readers s !! k); [|done]. by injection Hstep as <-.
  - destruct (isProcessing s) eqn:Hp; [done|].
    destruct (selectedImage s) as [src|] eqn:Hsel; [|done].
    injection Hstep as <-. unfold processImage. rewrite Hsel. cbn.
    rewrite length_app. cbn.
    assert (length (awaited s) + timers s = 0)%nat.
    { destruct (decide (length (awaited s) + timers s = 1)%nat) as [H1|]; [|lia].
      apply Hiff in H1. congruence. }
    split; [lia|]. split; [lia|done].
  - destruct (awaited s !! k) as [src|] eqn:Hk; [|done]. cbn in Hstep.
    destruct (xrayImage_of src); [|done].
    injection Hstep as <-. cbn.
    pose proof (length_delete_lookup _ _ _ Hk). 
    split; [lia|]. rewrite Hiff. lia.
  - destruct (timers s) as [|n] eqn:Hn; [done|].
    injection Hstep as <-. cbn. split; [lia|]. split; [done|lia].
  - destruct (selectedImage s); [|done]. by injection Hstep as <-.
Qed.

Lemma run_single_flight es : ∀ s s',
  run es s = Some s' → single_flight s → single_flight s'.
Proof.
  induction es as [|e es IH]; intros s s' Hrun Hs; cbn in Hrun.
  - by injection Hrun as <-.
  - destruct (step e s) as [s1|] eqn:Hstep; [|done]. cbn in Hrun.
    eapply IH; [done|]. by eapply step_single_flight.
Qed.

Lemma init_single_flight : single_flight init.
Proof. split; [cbn; lia|]. cbn. split; [done|lia]. Qed.

Lemma step_hung e s s' : step e s = Some s' → hung s → hung s'.
Proof.
  unfold hung. intros Hstep (Hp & Ht & Haw).
  destruct e as [file|k| |k|r1 r2| ]; cbn in Hstep.
  - injection Hstep as <-. by destruct file.
  - destruct (readers s !! k); [|done]. by injection Hstep as <-.
  - by rewrite Hp in Hstep.
  - destruct (awaited s !! k) as [src|] eqn:Hk; [|done]. cbn in Hstep.
    rewrite (Haw src) in Hstep; [done|]. by eapply list_elem_of_lookup_2.
  - by rewrite Ht in Hstep.
  - destruct (selectedImage s); [|done]. by injection Hstep as <-.
Qed.

Lemma run_hung es : ∀ s s', run es s = Some s' → hung s → hung s'.
Proof.
  induction es as [|e es IH]; intros s s' Hrun Hs; cbn in Hrun.
  - by injection Hrun as <-.
  - destruct (step e s) as [s1|] eqn:Hstep; [|done]. cbn in Hrun.
    eapply IH; [done|]. by eapply step_hung.
Qed.

End Flight.

(** X10: in every run of [XRayProcessor], at most one call of
    [processImage] is in flight (awaiting [applyXRayEffect] or its timer),
    and [isProcessing] is true exactly while one is. *)
Theorem one_call_in_flight (es : list event) (s : State) :
  run es init = Some s → single_flight s.
Proof. intros Hrun. by apply (run_single_flight es init s Hrun), init_single_flight. Qed.

Lemma one_call_in_flight_witness :
  ∃ s, run [Change (Some fileA); ReaderLoad 0; ClickProcess] init = Some s ∧
       isProcessing s = true ∧ single_flight s.
Proof.
  assert (∃ s, run [Change (Some fileA); ReaderLoad 0; ClickProcess] init = Some s
               ∧ isProcessing s = true) as (s & Hs & Hp).
  { eexists. split; by vm_compute. }
  exists s. split; [exact Hs|]. split; [exact Hp|].
  exact (one_call_in_flight _ s Hs).
Defined.

(** X11: when the selected image does not decode, or has no pixels,
    "Process Image" leaves the component processing for ever: whatever
    happens afterwards, [isProcessing] stays true. *)
Theorem processing_never_ends es s src s1 es' s' :
  run es init = Some s →
  selectedImage s = Some src → xrayImage_of src = None →
  step ClickProcess s = Some s1 →
  run es' s1 = Some s' →
  isProcessing s' = true.
Proof.
  intros Hrun Hsel Hnone Hclick Hrun'.
  pose proof (run_single_flight es init s Hrun init_single_flight) as [Hle Hiff].
  cbn in Hclick. destruct (isProcessing s) eqn:Hp; [done|].
  rewrite Hsel in Hclick. injection Hclick as <-.
  assert (in_flight s = 0)%nat as H0.
  { destruct (decide (in_flight s = 1)%nat) as [H1|]; [|lia].
    apply Hiff in H1. congruence. }
  unfold in_flight in H0.
  assert (awaited s = []) as Hnil by (apply length_zero_iff_nil; lia).
  apply (run_hung es' (processImage s) s' Hrun').
  unfold hung, processImage. rewrite Hsel. cbn. rewrite Hnil.
  split_and!; [done|lia|].
  intros src' Hin. apply list_elem_of_singleton in Hin. by subst.
Qed.

Lemma processing_never_ends_witness :
  ∃ s s1 s',
    (run [Change (Some fileZ); ReaderLoad 0] init = Some s ∧
     selectedImage s = Some (contents fileZ) ∧
     xrayImage_of (contents fileZ) = None ∧
     step ClickProcess s = Some s1 ∧
     run [ClickReset; Change (Some fileA); ReaderLoad 0] s1 = Some s') ∧
    isProcessing s' = true.
Proof.
  assert (∃ s s1 s',
    run [Change (Some fileZ); ReaderLoad 0] init = Some s ∧
    selectedImage s = Some (contents fileZ) ∧
    xrayImage_of (contents fileZ) = None ∧
    step ClickProcess s = Some s1 ∧
    run [ClickReset; Change (Some fileA); ReaderLoad 0] s1 = Some s')
    as (s & s1 & s' & H1 & H2 & H3 & H4 & H5).
  { eexists _, _, _. split_and!; by vm_compute. }
  exists s, s1, s'. split; [by split_and!|].
  exact (processing_never_ends _ s (contents fileZ) s1 _ s' H1 H2 H3 H4 H5).
Defined.

(** ** Values of the mocks *)

Section MoreBinary64.
Local Open Scope Q_scope.
Import JS.

Lemma b64_zero q : q == 0 → b64 q = 0.
Proof.
  intros Hq. unfold b64. destruct (Qeq_bool q 0) eqn:Hb; [done|].
  by apply Qeq_bool_neq in Hb.
Qed.

Lemma pow2_half k : pow2 k * (1 # 2) == pow2 (k - 1).
Proof. rewrite pow2_sub. change (pow2 1) with 2. field. Qed.

(** A value from 0 to below [2^(k+1)] is moved by [2^(k-53)] at most. *)
Lemma b64_near q k :
  0 <= q → q < pow2 (k + 1) → (-1022 ≤ k)%Z →
  q - pow2 (k - 53) <= b64 q ∧ b64 q <= q + pow2 (k - 53).
Proof.
  intros H0 Hlt Hk. pose proof (pow2_pos (k - 53)) as Hp.
  destruct (Qeq_dec q 0) as [Hz|Hnz].
  { rewrite (b64_zero q Hz). split; lra. }
  assert (0 < q) as Hpos by lra.
  pose proof (exponent_le q k Hpos Hlt Hk) as He.
  pose proof (pow2_le (exponent q - 52) (k - 52) ltac:(lia)) as Hu.
  fold (ulp q) in Hu.
  pose proof (pow2_half (k - 52)) as Hh.
  replace (k - 52 - 1)%Z with (k - 53)%Z in Hh by lia.
  pose proof (b64_error q) as [Hlo Hhi]. split; lra.
Qed.

(** The floor in the mock values, for a value of [Math.random()]. *)
Lemma floor_times_40 r :
  random_value r →
  ∃ k : Z, Math_floor (Fin r * of_Z 40)%js = of_Z k ∧ (0 ≤ k ≤ 39)%Z.
Proof.
  intros (Hb & H0 & H1).
  pose proof (binary64_below_1 r Hb H0 H1) as Hmax.
  destruct (b64_times_40 r H0 Hmax) as [Hlo Hhi].
  unfold of_Z. cbn [mul lift2 Math_floor].
  change (inject_Z 40) with 40.
  exists (Qfloor (b64 (r * 40))). split; [done|]. split.
  - rewrite <- (Qfloor_Z 0). by apply Qfloor_resp_le.
  - pose proof (Qfloor_le (b64 (r * 40))) as Hfl.
    assert (Qfloor (b64 (r * 40)) < 40)%Z; [|lia]. rewrite Zlt_Qlt.
    change (inject_Z 40) with 40. by eapply Qle_lt_trans.
Qed.

End MoreBinary64.

Lemma b64_add_30 (k : Z) :
  0 ≤ k ≤ 39 → JS.b64 (inject_Z k + inject_Z 30) = inject_Z (k + 30).
Proof.
  intros Hk.
  pose proof (all_bytes_spec
    (fun v => (39 <? v) ||
              bool_decide (JS.b64 (inject_Z v + inject_Z 30) = inject_Z (v + 30))))
    as Hall.
  specialize (Hall ltac:(by vm_compute) k ltac:(lia)). cbv beta in Hall.
  apply orb_true_iff in Hall as [Hgt|Heq]; [lia|].
  by apply bool_decide_eq_true in Heq.
Qed.

Lemma mock_confidence_bounds (r : Q) :
  random_value r →
  ∃ c : Z, mock_confidence (JS.Fin r) = JS.of_Z c ∧ 60 ≤ c ≤ 99.
Proof.
  intros Hr. destruct (floor_times_40 r Hr) as (k & Hk & Hrange).
  unfold mock_confidence. rewrite Hk.
  exists (k + 60). split; [|lia].
  unfold JS.of_Z. cbn [JS.add JS.lift2]. f_equal. by apply b64_add_60.
Qed.

(** X12: from a state in which nothing is being processed and the selected
    image has pixels, "Process Image", the promise and the timer run
    through: the processed image is the transform of the selected image, the
    analysis has a confidence from 60 to 99, and [isProcessing] is false
    again with nothing left in flight. *)
Theorem processImage_completes es s src url r1 r2 :
  run es init = Some s →
  isProcessing s = false →
  selectedImage s = Some src → xrayImage_of src = Some url →
  random_value r2 →
  ∃ s' result c,
    run [ClickProcess; XrayResolved 0; Timeout r1 r2] s = Some s' ∧
    selectedImage s' = Some src ∧
    processedImage s' = Some url ∧
    analysisResult s' = Some result ∧
    confidence result = JS.of_Z c ∧ 60 ≤ c ≤ 99 ∧
    isProcessing s' = false ∧ idle s'.
Proof.
  intros Hrun Hp Hsel Hurl Hr.
  pose proof (run_single_flight es init s Hrun init_single_flight) as [Hle Hiff].
  assert (in_flight s = 0)%nat as H0.
  { destruct (decide (in_flight s = 1)%nat) as [H1|]; [|lia].
    apply Hiff in H1. congruence. }
  unfold in_flight in H0.
  assert (awaited s = []) as Hnil by (apply length_zero_iff_nil; lia).
  assert (timers s = 0%nat) as Ht by lia.
  destruct (mock_confidence_bounds r2 Hr) as (c & Hc & Hrange).
  cbn [run step]. rewrite Hp, Hsel. cbn [mbind option_bind].
  unfold processImage. rewrite Hsel. cbn. rewrite Hnil. cbn.
  rewrite Hurl. cbn. rewrite Ht. cbn.
  eexists _, _, c. split; [done|]. cbn.
  split_and!; first [done | lia].
Qed.

Lemma processImage_completes_witness :
  ∃ s url,
    (run [Change (Some fileA); ReaderLoad 0] init = Some s ∧
     isProcessing s = false ∧
     selectedImage s = Some (contents fileA) ∧
     xrayImage_of (contents fileA) = Some url ∧
     random_value (3 # 4)) ∧
    ∃ s' result c,
      run [ClickProcess; XrayResolved 0; Timeout (1 # 4) (3 # 4)] s = Some s' ∧
      selectedImage s' = Some (contents fileA) ∧
      processedImage s' = Some url ∧
      analysisResult s' = Some result ∧
      confidence result = JS.of_Z c ∧ 60 ≤ c ≤ 99 ∧
      isProcessing s' = false ∧ idle s'.
Proof.
  assert (∃ s url,
    run [Change (Some fileA); ReaderLoad 0] init = Some s ∧
    isProcessing s = false ∧
    selectedImage s = Some (contents fileA) ∧
    xrayImage_of (contents fileA) = Some url ∧
    random_value (3 # 4)) as (s & url & H1 & H2 & H3 & H4 & H5).
  { eexists _, _. split_and!; by vm_compute. }
  exists s, url. split; [by split_and!|].
  exact (processImage_completes _ s (contents fileA) url (1 # 4) (3 # 4)
           H1 H2 H3 H4 H5).
Defined.

Lemma mock_probability_bounds (r : Q) :
  random_value r →
  ∃ c : Z, Advanced.mock_probability (JS.Fin r) = JS.of_Z c ∧ 30 ≤ c ≤ 69.
Proof.
  intros Hr. destruct (floor_times_40 r Hr) as (k & Hk & Hrange).
  unfold Advanced.mock_probability. rewrite Hk.
  exists (k + 30). split; [|lia].
  unfold JS.of_Z. cbn [JS.add JS.lift2]. f_equal. by apply b64_add_30.
Qed.

Lemma quality_percent_bounds (r : Q) :
  random_value r →
  ∃ n : Z,
    Advanced.quality_percent (Advanced.mock_quality_score (JS.Fin r)) = JS.of_Z n ∧
    60 ≤ n ≤ 100.
Proof.
  intros (Hb & H0 & H1).
  pose proof (binary64_below_1 r Hb H0 H1) as Hmax.
  unfold Advanced.quality_percent, Advanced.mock_quality_score, literal, JS.of_Z.
  cbn [JS.mul JS.add JS.lift2 Math_round].
  change (JS.b64 (2 # 5)) with (3602879701896397 # 9007199254740992)%Q.
  change (JS.b64 (3 # 5)) with (5404319552844595 # 9007199254740992)%Q.
  change (inject_Z 100) with 100%Q.
  set (c04 := (3602879701896397 # 9007199254740992)%Q).
  set (c06 := (5404319552844595 # 9007199254740992)%Q).
  set (p := JS.b64 (r * c04)).
  assert (0 <= p /\ p <= (401 # 1000))%Q as [Hp0 Hp1].
  { split; [apply b64_nonneg; unfold c04; lra|].
    destruct (b64_near (r * c04) (-2)) as [_ Hhi]; [unfold c04; lra| |lia|].
    - change (JS.pow2 (-2 + 1)) with (1 # 2)%Q. unfold c04. lra.
    - change (JS.pow2 (-2 - 53)) with (1 # 36028797018963968)%Q in Hhi.
      fold p in Hhi. unfold c04 in Hhi. lra. }
  set (q := JS.b64 (p + c06)).
  assert ((599 # 1000) <= q /\ q <= (1002 # 1000))%Q as [Hq0 Hq1].
  { destruct (b64_near (p + c06) 0) as [Hlo Hhi]; [unfold c06; lra| |lia|].
    - change (JS.pow2 (0 + 1)) with 2%Q. unfold c06. lra.
    - change (JS.pow2 (0 - 53)) with (1 # 9007199254740992)%Q in Hlo, Hhi.
      fold q in Hlo, Hhi. unfold c06 in Hlo, Hhi. split; lra. }
  set (y := JS.b64 (q * 100)).
  assert ((598 # 10) <= y /\ y <= (1003 # 10))%Q as [Hy0 Hy1].
  { destruct (b64_near (q * 100) 6) as [Hlo Hhi]; [lra| |lia|].
    - change (JS.pow2 (6 + 1)) with 128%Q. lra.
    - change (JS.pow2 (6 - 53)) with (1 # 140737488355328)%Q in Hlo, Hhi.
      fold y in Hlo, Hhi. split; lra. }
  exists (Qfloor (y + (1 # 2))). split; [done|]. split.
  - rewrite <- (Qfloor_Z 60). apply Qfloor_resp_le.
    change (inject_Z 60) with 60%Q. lra.
  - pose proof (Qfloor_le (y + (1 # 2))) as Hfl.
    assert (Qfloor (y + (1 # 2)) < 101); [|lia]. rewrite Zlt_Qlt.
    change (inject_Z 101) with 101%Q. lra.
Qed.

(** ** [AdvancedXRayProcessor] *)

(** Every value from 0 to 39 is the floor for some draw. *)
Lemma floor_times_40_onto (k : Z) :
  0 ≤ k ≤ 39 →
  random_value (draw_for k) ∧
  JS.Math_floor (JS.Fin (draw_for k) * JS.of_Z 40)%js = JS.of_Z k.
Proof.
  intros Hk.
  pose proof (all_bytes_spec
    (fun k => (39 <? k) ||
              (Qeq_bool (JS.b64 (draw_for k)) (draw_for k) &&
               Qle_bool 0 (draw_for k) && negb (Qle_bool 1 (draw_for k)) &&
               (Qfloor (JS.b64 (draw_for k * inject_Z 40)) =? k)))) as Hall.
  specialize (Hall ltac:(by vm_compute) k ltac:(lia)). cbv beta in Hall.
  apply orb_true_iff in Hall as [Hgt|Hall]; [lia|].
  apply andb_true_iff in Hall as [Hall Hfl].
  apply andb_true_iff in Hall as [Hall Hlt].
  apply andb_true_iff in Hall as [Hb H0].
  apply Qeq_bool_iff in Hb. apply Qle_bool_iff in H0.
  apply negb_true_iff in Hlt. apply Z.eqb_eq in Hfl.
  split.
  - split; [exact Hb|]. split; [exact H0|].
    apply Qnot_le_lt. intros Hle. apply Qle_bool_iff in Hle. congruence.
  - unfold JS.of_Z. cbn [JS.mul JS.lift2 JS.Math_floor]. by rewrite Hfl.
Qed.

Lemma mock_confidence_onto (conf : Z) :
  60 ≤ conf ≤ 99 →
  random_value (draw_for (conf - 60)) ∧
  mock_confidence (JS.Fin (draw_for (conf - 60))) = JS.of_Z conf.
Proof.
  intros Hc. destruct (floor_times_40_onto (conf - 60)) as [Hr Hfl]; [lia|].
  split; [done|]. unfold mock_confidence. rewrite Hfl.
  unfold JS.of_Z. cbn [JS.add JS.lift2]. f_equal.
  rewrite b64_add_60 by lia. f_equal. lia.
Qed.

Lemma mock_probability_onto (p : Z) :
  30 ≤ p ≤ 69 →
  random_value (draw_for (p - 30)) ∧
  Advanced.mock_probability (JS.Fin (draw_for (p - 30))) = JS.of_Z p.
Proof.
  intros Hp. destruct (floor_times_40_onto (p - 30)) as [Hr Hfl]; [lia|].
  split; [done|]. unfold Advanced.mock_probability. rewrite Hfl.
  unfold JS.of_Z. cbn [JS.add JS.lift2]. f_equal.
  rewrite b64_add_30 by lia. f_equal. lia.
Qed.

(** X13: the mock analysis of the fallback of [processImage].  For values
    of [Math.random()], the confidence is an integer from 60 to 99 and each
    of the two probabilities an integer from 30 to 69; the result names the
    model of the closure, the processed image is the image of the closure,
    and [isProcessing] is false.  The three numbers come from three draws
    and do not constrain each other: for every confidence from 60 to 99,
    every [Normal] and every [Pneumonia] from 30 to 69 there are draws
    that give exactly these three (so the two probabilities need not add
    up to 100). *)
Theorem advanced_fallback_result
    (src : DataURL) (model : string) (r1 r2 r3 r4 r5 : Q) (c : Advanced.Cells)
    (conf' pn' pp' : Z) :
  random_value r2 → random_value r3 → random_value r4 →
  60 ≤ conf' ≤ 99 → 30 ≤ pn' ≤ 69 → 30 ≤ pp' ≤ 69 →
  (let c' := Advanced.processImage_fallback src model
               (JS.Fin r1) (JS.Fin r2) (JS.Fin r3) (JS.Fin r4) (JS.Fin r5) c in
   ∃ m conf pn pp,
     Advanced.analysisResult c' = Some (Advanced.MockAnalysis m) ∧
     Advanced.confidence m = JS.of_Z conf ∧ 60 ≤ conf ≤ 99 ∧
     Advanced.Normal (Advanced.probabilities m) = JS.of_Z pn ∧ 30 ≤ pn ≤ 69 ∧
     Advanced.Pneumonia (Advanced.probabilities m) = JS.of_Z pp ∧ 30 ≤ pp ≤ 69 ∧
     Advanced.model_used m = model ∧
     Advanced.processedImage c' = Some src ∧
     Advanced.isProcessing c' = false) ∧
  (∃ q2 q3 q4 m,
     random_value q2 ∧ random_value q3 ∧ random_value q4 ∧
     Advanced.analysisResult
       (Advanced.processImage_fallback src model
          (JS.Fin r1) (JS.Fin q2) (JS.Fin q3) (JS.Fin q4) (JS.Fin r5) c)
       = Some (Advanced.MockAnalysis m) ∧
     Advanced.confidence m = JS.of_Z conf' ∧
     Advanced.Normal (Advanced.probabilities m) = JS.of_Z pn' ∧
     Advanced.Pneumonia (Advanced.probabilities m) = JS.of_Z pp').
Proof.
  intros H2 H3 H4 Hconf' Hpn' Hpp'. split.
  - intros c'.
    destruct (mock_confidence_bounds r2 H2) as (conf & Hconf & ?).
    destruct (mock_probability_bounds r3 H3) as (pn & Hpn & ?).
    destruct (mock_probability_bounds r4 H4) as (pp & Hpp & ?).
    eexists _, conf, pn, pp. split; [reflexivity|]. cbn.
    split_and!; first [done | lia].
  - destruct (mock_confidence_onto conf' Hconf') as [Hq2 Hc].
    destruct (mock_probability_onto pn' Hpn') as [Hq3 Hn].
    destruct (mock_probability_onto pp' Hpp') as [Hq4 Hp].
    eexists (draw_for (conf' - 60)), (draw_for (pn' - 30)), (draw_for (pp' - 30)), _.
    split; [done|]. split; [done|]. split; [done|].
    split; [reflexivity|]. cbn. by split_and!.
Qed.

Lemma advanced_fallback_result_witness :
  (random_value 0 ∧ random_value (1 # 2) ∧ random_value (3 # 4) ∧
   60 ≤ 99 ≤ 99 ∧ 30 ≤ 30 ≤ 69 ∧ 30 ≤ 69 ≤ 69) ∧
  (∃ m conf pn pp,
     Advanced.analysisResult
       (Advanced.processImage_fallback (contents fileA) "efficientnet"
          (JS.Fin (1 # 4)) (JS.Fin 0) (JS.Fin (1 # 2)) (JS.Fin (3 # 4)) (JS.Fin 0)
          Advanced.initial) = Some (Advanced.MockAnalysis m) ∧
     Advanced.confidence m = JS.of_Z conf ∧ 60 ≤ conf ≤ 99 ∧
     Advanced.Normal (Advanced.probabilities m) = JS.of_Z pn ∧ 30 ≤ pn ≤ 69 ∧
     Advanced.Pneumonia (Advanced.probabilities m) = JS.of_Z pp ∧ 30 ≤ pp ≤ 69 ∧
     Advanced.model_used m = "efficientnet"%string ∧
     Advanced.processedImage
       (Advanced.processImage_fallback (contents fileA) "efficientnet"
          (JS.Fin (1 # 4)) (JS.Fin 0) (JS.Fin (1 # 2)) (JS.Fin (3 # 4)) (JS.Fin 0)
          Advanced.initial) = Some (contents fileA) ∧
     Advanced.isProcessing
       (Advanced.processImage_fallback (contents fileA) "efficientnet"
          (JS.Fin (1 # 4)) (JS.Fin 0) (JS.Fin (1 # 2)) (JS.Fin (3 # 4)) (JS.Fin 0)
          Advanced.initial) = false) ∧
  (∃ q2 q3 q4 m,
     random_value q2 ∧ random_value q3 ∧ random_value q4 ∧
     Advanced.analysisResult
       (Advanced.processImage_fallback (contents fileA) "efficientnet"
          (JS.Fin (1 # 4)) (JS.Fin q2) (JS.Fin q3) (JS.Fin q4) (JS.Fin 0)
          Advanced.initial) = Some (Advanced.MockAnalysis m) ∧
     Advanced.confidence m = JS.of_Z 99 ∧
     Advanced.Normal (Advanced.probabilities m) = JS.of_Z 30 ∧
     Advanced.Pneumonia (Advanced.probabilities m) = JS.of_Z 69).
Proof.
  assert (random_value 0 ∧ random_value (1 # 2) ∧ random_value (3 # 4))
    as (H2 & H3 & H4).
  { split_and!; (split; [by vm_compute|]; split; by vm_compute). }
  split; [split_and!; first [done | lia]|].
  exact (advanced_fallback_result (contents fileA) "efficientnet"
           (1 # 4) 0 (1 # 2) (3 # 4) 0 Advanced.initial 99 30 69 H2 H3 H4
           ltac:(lia) ltac:(lia) ltac:(lia)).
Defined.

(** X14: when [reader.onload] of [AdvancedXRayProcessor] has run, the new
    image is selected, the processed image, the analysis, the heatmap and
    the model comparison are null, the optimization report is as it was,
    and the quality on display, [Math.round(quality_score * 100)], is an
    integer from 60 to 100 of a quality that is valid and has no issue. *)
Theorem advanced_upload_quality (result : DataURL) (r : Q) (c : Advanced.Cells) :
  random_value r →
  let c' := Advanced.reader_onload result (JS.Fin r) c in
  Advanced.selectedImage c' = Some result ∧
  Advanced.processedImage c' = None ∧
  Advanced.analysisResult c' = None ∧
  Advanced.heatmapImage c' = None ∧
  Advanced.modelComparison c' = None ∧
  Advanced.optimizationReport c' = Advanced.optimizationReport c ∧
  ∃ q n,
    Advanced.imageQuality c' = Some q ∧
    Advanced.is_valid q = true ∧ Advanced.issues q = [] ∧
    Advanced.quality_percent (Advanced.quality_score q) = JS.of_Z n ∧
    60 ≤ n ≤ 100.
Proof.
  intros Hr c'. destruct (quality_percent_bounds r Hr) as (n & Hn & ?).
  split_and!; try reflexivity.
  eexists _, n. split; [reflexivity|].
  cbn [Advanced.is_valid Advanced.issues Advanced.quality_score
       Advanced.mockQuality]. split_and!; first [done | lia].
Qed.

Lemma advanced_upload_quality_witness :
  random_value (9007199254740991 # 9007199254740992) ∧
  Advanced.selectedImage
    (Advanced.reader_onload (contents fileA)
       (JS.Fin (9007199254740991 # 9007199254740992)) Advanced.initial)
    = Some (contents fileA) ∧
  Advanced.processedImage
    (Advanced.reader_onload (contents fileA)
       (JS.Fin (9007199254740991 # 9007199254740992)) Advanced.initial) = None ∧
  Advanced.analysisResult
    (Advanced.reader_onload (contents fileA)
       (JS.Fin (9007199254740991 # 9007199254740992)) Advanced.initial) = None ∧
  Advanced.heatmapImage
    (Advanced.reader_onload (contents fileA)
       (JS.Fin (9007199254740991 # 9007199254740992)) Advanced.initial) = None ∧
  Advanced.modelComparison
    (Advanced.reader_onload (contents fileA)
       (JS.Fin (9007199254740991 # 9007199254740992)) Advanced.initial) = None ∧
  Advanced.optimizationReport
    (Advanced.reader_onload (contents fileA)
       (JS.Fin (9007199254740991 # 9007199254740992)) Advanced.initial)
    = Advanced.optimizationReport Advanced.initial ∧
  ∃ q n,
    Advanced.imageQuality
      (Advanced.reader_onload (contents fileA)
         (JS.Fin (9007199254740991 # 9007199254740992)) Advanced.initial)
      = Some q ∧
    Advanced.is_valid q = true ∧ Advanced.issues q = [] ∧
    Advanced.quality_percent (Advanced.quality_score q) = JS.of_Z n ∧
    60 ≤ n ≤ 100.
Proof.
  assert (random_value (9007199254740991 # 9007199254740992)) as Hr.
  { split; [by vm_compute|]. split; by vm_compute. }
  split; [exact Hr|].
  exact (advanced_upload_quality (contents fileA)
           (9007199254740991 # 9007199254740992) Advanced.initial Hr).
Defined.

Section AdvancedView.
Import Advanced.
Implicit Types (s : Advanced.State) (e : Advanced.event).

Lemma advanced_step_single_flight e s s' :
  Advanced.step e s = Some s' → single_flight s → single_flight s'.
Proof.
  unfold single_flight, in_flight. intros Hstep [Hle Hoff].
  destruct e as [models|file|k r|model|tab| |k data|k r1 r2 r3 r4 r5| |data| |k data| ];
    cbn in Hstep.
  - destruct (fetchingModels s); [|done]. injection Hstep as <-.
    by destruct models.
  - destruct file; by injection Hstep as <-.
  - destruct (readers s !! k); [|done]. by injection Hstep as <-.
  - by injection Hstep as <-.
  - destruct (tab_rendered tab (cells s)); [|done]. by injection Hstep as <-.
  - destruct (isProcessing (cells s)) eqn:Hp; [done|].
    destruct (selectedImage (cells s)) as [src|] eqn:Hsel; [|done].
    injection Hstep as <-. cbn. rewrite length_app. cbn.
    specialize (Hoff eq_refl). split; [lia|].
    unfold processImage. rewrite Hsel. cbn. done.
  - destruct (analyzing s !! k) as [closure|] eqn:Hk; [|done]. cbn in Hstep.
    pose proof (length_delete_lookup _ _ _ Hk).
    destruct data as [[analysis heatmap]|]; injection Hstep as <-; cbn.
    + split; [lia|]. intros Hp. specialize (Hoff Hp). lia.
    + rewrite length_app. cbn. split; [lia|].
      intros Hp. specialize (Hoff Hp). lia.
  - destruct (timers s !! k) as [closure|] eqn:Hk; [|done]. cbn in Hstep.
    pose proof (length_delete_lookup _ _ _ Hk).
    injection Hstep as <-. cbn. split; lia.
  - destruct (isProcessing (cells s)) eqn:Hp; [done|].
    destruct (selectedImage (cells s)) as [src|] eqn:Hsel; [|done].
    injection Hstep as <-. cbn. specialize (Hoff eq_refl). split; [lia|].
    unfold compareModels. rewrite Hsel. cbn. done.
  - destruct (comparing s) as [|n] eqn:Hn; [done|].
    injection Hstep as <-. cbn. destruct data; cbn.
    + split; [lia|]. intros Hp. specialize (Hoff Hp). lia.
    + split; lia.
  - destruct (selectedImage (cells s)); [|done]. by injection Hstep as <-.
  - destruct (reporting s !! k); [|done]. injection Hstep as <-.
    by destruct data.
  - destruct (selectedImage (cells s)); [|done]. by injection Hstep as <-.
Qed.

Lemma advanced_run_single_flight es : ∀ s s',
  Advanced.run es s = Some s' → single_flight s → single_flight s'.
Proof.
  induction es as [|e es IH]; intros s s' Hrun Hs; cbn in Hrun.
  - by injection Hrun as <-.
  - destruct (Advanced.step e s) as [s1|] eqn:Hstep; [|done]. cbn in Hrun.
    eapply IH; [done|]. by eapply advanced_step_single_flight.
Qed.

Lemma advanced_step_locked e s s' :
  Advanced.step e s = Some s' → locked s → locked s'.
Proof.
  unfold locked, in_flight. intros Hstep [Hp H0].
  assert (analyzing s = [] ∧ timers s = [] ∧ comparing s = 0%nat) as (Ha & Ht & Hc).
  { split_and!; [apply length_zero_iff_nil| apply length_zero_iff_nil|]; lia. }
  destruct e as [models|file|k r|model|tab| |k data|k r1 r2 r3 r4 r5| |data| |k data| ];
    cbn in Hstep.
  - destruct (fetchingModels s); [|done]. injection Hstep as <-.
    by destruct models.
  - destruct file; by injection Hstep as <-.
  - destruct (readers s !! k); [|done]. by injection Hstep as <-.
  - by injection Hstep as <-.
  - destruct (tab_rendered tab (cells s)); [|done]. by injection Hstep as <-.
  - by rewrite Hp in Hstep.
  - by rewrite Ha in Hstep.
  - by rewrite Ht in Hstep.
  - by rewrite Hp in Hstep.
  - by rewrite Hc in Hstep.
  - destruct (selectedImage (cells s)); [|done]. by injection Hstep as <-.
  - destruct (reporting s !! k); [|done]. injection Hstep as <-.
    by destruct data.
  - destruct (selectedImage (cells s)); [|done]. by injection Hstep as <-.
Qed.

Lemma advanced_run_locked es : ∀ s s',
  Advanced.run es s = Some s' → locked s → locked s'.
Proof.
  induction es as [|e es IH]; intros s s' Hrun Hs; cbn in Hrun.
  - by injection Hrun as <-.
  - destruct (Advanced.step e s) as [s1|] eqn:Hstep; [|done]. cbn in Hrun.
    eapply IH; [done|]. by eapply advanced_step_locked.
Qed.

Lemma advanced_init_single_flight : single_flight Advanced.init.
Proof. split; [cbn; lia|done]. Qed.

End AdvancedView.

(** X15: in [AdvancedXRayProcessor], an answer of the backend with
    [data.success], to "Analyze" or to "Compare Models", leaves
    [isProcessing] true for good: in every state that follows, both buttons
    are disabled. *)
Theorem backend_success_locks
    (es : list Advanced.event) (s : Advanced.State) (e : Advanced.event)
    (s1 : Advanced.State) (es' : list Advanced.event) (s' : Advanced.State) :
  Advanced.run es Advanced.init = Some s →
  Advanced.backend_success e → Advanced.step e s = Some s1 →
  Advanced.run es' s1 = Some s' →
  Advanced.isProcessing (Advanced.cells s') = true ∧
  Advanced.step Advanced.ClickAnalyze s' = None ∧
  Advanced.step Advanced.ClickCompare s' = None.
Proof.
  intros Hrun He Hstep Hrun'.
  pose proof (advanced_run_single_flight es _ s Hrun advanced_init_single_flight)
    as [Hle Hoff].
  assert (Advanced.locked s1) as Hlock.
  { unfold Advanced.locked, Advanced.in_flight in *.
    destruct e as [| | | | | |k [[analysis heatmap]|]| | |[comparison|]| | | ];
      try done; cbn in Hstep.
    - destruct (Advanced.analyzing s !! k) as [closure|] eqn:Hk; [|done].
      cbn in Hstep. pose proof (length_delete_lookup _ _ _ Hk).
      injection Hstep as <-. cbn. split; [|lia].
      destruct (Advanced.isProcessing (Advanced.cells s)); [done|].
      specialize (Hoff eq_refl). lia.
    - destruct (Advanced.comparing s) as [|n] eqn:Hn; [done|].
      injection Hstep as <-. cbn. split; [|lia].
      destruct (Advanced.isProcessing (Advanced.cells s)); [done|].
      specialize (Hoff eq_refl). lia. }
  destruct (advanced_run_locked es' s1 s' Hrun' Hlock) as [Hp _].
  split; [done|]. cbn. by rewrite Hp.
Qed.

Lemma backend_success_locks_witness :
  ∃ s s1 s',
    (Advanced.run [Advanced.Change (Some fileA); Advanced.ReaderLoad 0 (1 # 2);
                   Advanced.ClickAnalyze] Advanced.init = Some s ∧
     Advanced.backend_success (Advanced.AnalyzeSettled 0 (Some ("{}"%string, None))) ∧
     Advanced.step (Advanced.AnalyzeSettled 0 (Some ("{}"%string, None))) s = Some s1 ∧
     Advanced.run [Advanced.ClickReset; Advanced.Change (Some fileB);
                   Advanced.ReaderLoad 0 (1 # 2)] s1 = Some s') ∧
    Advanced.isProcessing (Advanced.cells s') = true ∧
    Advanced.step Advanced.ClickAnalyze s' = None ∧
    Advanced.step Advanced.ClickCompare s' = None.
Proof.
  assert (∃ s s1 s',
    Advanced.run [Advanced.Change (Some fileA); Advanced.ReaderLoad 0 (1 # 2);
                  Advanced.ClickAnalyze] Advanced.init = Some s ∧
    Advanced.step (Advanced.AnalyzeSettled 0 (Some ("{}"%string, None))) s = Some s1 ∧
    Advanced.run [Advanced.ClickReset; Advanced.Change (Some fileB);
                  Advanced.ReaderLoad 0 (1 # 2)] s1 = Some s')
    as (s & s1 & s' & H1 & H2 & H3).
  { eexists _, _, _. split_and!; by vm_compute. }
  exists s, s1, s'. split; [split_and!; first [done | exact I]|].
  exact (backend_success_locks _ s
           (Advanced.AnalyzeSettled 0 (Some ("{}"%string, None))) s1 _ s'
           H1 I H2 H3).
Defined.

(** ** [ModelComparison] *)

Section Best.
Import ModelComparison.

Lemma fold_better_spec metric : ∀ rest first,
  let best := fold_left (better metric) rest first in
  best ∈ first :: rest ∧
  ∀ m, m ∈ first :: rest → at_least_as_good metric best m.
Proof.
  induction rest as [|x rest IH]; intros first; cbn.
  - split; [by left|]. intros m ->%list_elem_of_singleton.
    unfold at_least_as_good. destruct (lower_is_better metric); apply Qle_refl.
  - destruct (IH (better metric first x)) as [Hin Hbest]. split.
    + apply elem_of_cons in Hin as [Heq|Hin]; [|by do 2 right].
      rewrite Heq. unfold better.
      destruct (lower_is_better metric); destruct (Qlt_le_dec _ _);
        [right; by left|by left|right; by left|by left].
    + intros m Hm.
      assert (at_least_as_good metric (better metric first x) first ∧
              at_least_as_good metric (better metric first x) x) as [Hf Hx].
      { unfold at_least_as_good, better.
        destruct (lower_is_better metric); destruct (Qlt_le_dec _ _);
          split; try apply Qle_refl; try done; by apply Qlt_le_weak. }
      assert (∀ a b c, at_least_as_good metric a b → at_least_as_good metric b c →
                       at_least_as_good metric a c) as Htrans.
      { unfold at_least_as_good. intros a b c.
        destruct (lower_is_better metric); intros; by eapply Qle_trans. }
      pose proof (Hbest (better metric first x) ltac:(by left)) as Hb0.
      apply elem_of_cons in Hm as [->|Hm]; [by eapply Htrans|].
      apply elem_of_cons in Hm as [->|Hm]; [by eapply Htrans|].
      apply Hbest. by right.
Qed.

Lemma getBestModel_spec (table : list Model) (metric : Metric) :
  table ≠ [] →
  ∃ best, getBestModel table metric = inr best ∧ best ∈ table ∧
          ∀ m, m ∈ table → at_least_as_good metric best m.
Proof.
  intros Hne. unfold getBestModel, reduce.
  destruct table as [|first rest]; [done|].
  eexists. split; [done|]. apply fold_better_spec.
Qed.

Lemma insert_perm {A} (cmp : A → A → JS.Number) (x : A) (l : list A) :
  insert cmp x l ≡ₚ x :: l.
Proof.
  induction l as [|y l IH]; cbn [insert]; [reflexivity|].
  destruct (JS.gt (JS.of_Z 0) (cmp y x)); [|reflexivity]. rewrite IH. apply Permutation_swap.
Qed.

Lemma sort_perm {A} (cmp : A → A → JS.Number) (l : list A) : sort cmp l ≡ₚ l.
Proof.
  induction l as [|x l IH]; [reflexivity|].
  unfold sort. cbn [foldr]. fold (sort cmp l). by rewrite insert_perm, IH.
Qed.

(** Without ties, the best model of a table is the best model of every
    rearrangement of it. *)
Lemma getBestModel_perm (l l' : list Model) (metric : Metric) :
  l' ≡ₚ l →
  (∀ a b, a ∈ l → b ∈ l → (get metric a == get metric b)%Q → a = b) →
  getBestModel l' metric = getBestModel l metric.
Proof.
  intros Hperm Hdistinct.
  destruct l as [|x l0].
  { apply Permutation_nil_r in Hperm. by subst. }
  destruct (getBestModel_spec (x :: l0) metric) as (b & Hb & Hin & Hbest); [done|].
  destruct (getBestModel_spec l' metric) as (b' & Hb' & Hin' & Hbest').
  { intros ->. by apply Permutation_nil_l in Hperm. }
  rewrite Hb, Hb'. f_equal.
  rewrite Hperm in Hin'.
  apply Hdistinct; [done..|].
  specialize (Hbest b' Hin'). specialize (Hbest' b ltac:(by rewrite Hperm)).
  unfold at_least_as_good in *.
  destruct (lower_is_better metric); by apply Qle_antisym.
Qed.

Lemma models_distinct (metric : Metric) (a b : Model) :
  a ∈ models → b ∈ models → (get metric a == get metric b)%Q → a = b.
Proof.
  intros Ha Hb Heq.
  assert (forallb (fun a => forallb (fun b =>
            implb (Qeq_bool (get metric a) (get metric b)) (bool_decide (a = b)))
            models) models = true) as Hall.
  { destruct metric; by vm_compute. }
  rewrite forallb_forall in Hall. apply list_elem_of_In in Ha, Hb.
  specialize (Hall a Ha). rewrite forallb_forall in Hall.
  specialize (Hall b Hb). apply Qeq_bool_iff in Heq. rewrite Heq in Hall.
  by apply bool_decide_eq_true in Hall.
Qed.

End Best.

(** X16: on a table with a model, [getBestModel] returns a model of the
    table that is at least as good in the metric as every model of the
    table (smaller for the inference time and the model size, larger for
    the others); on an empty table its [reduce] throws a [TypeError]. *)
Theorem getBestModel_best
    (sortedModels : list ModelComparison.Model) (metric : ModelComparison.Metric) :
  match ModelComparison.getBestModel sortedModels metric with
  | inl _ => sortedModels = []
  | inr best =>
      best ∈ sortedModels ∧
      ∀ m, m ∈ sortedModels → ModelComparison.at_least_as_good metric best m
  end.
Proof.
  unfold ModelComparison.getBestModel, ModelComparison.reduce.
  destruct sortedModels as [|first rest]; [done|].
  apply fold_better_spec.
Qed.

(** X17: the model that the component marks as the best for a metric does
    not depend on the sort key: [getBestModel] finds the same model in
    [sortedModels], whatever [sortBy] is, as in [models]. *)
Theorem getBestModel_any_order (sortBy metric : ModelComparison.Metric) :
  ModelComparison.getBestModel (ModelComparison.sortedModels sortBy) metric =
  ModelComparison.getBestModel ModelComparison.models metric.
Proof.
  apply getBestModel_perm; [apply sort_perm|]. apply models_distinct.
Qed.

(** X18: for every sort key, [sortedModels] is a rearrangement of
    [models] with the better in the key before the worse, and its first
    model is the one that [getBestModel] returns for the key. *)
Theorem sortedModels_best_first (sortBy : ModelComparison.Metric) :
  ModelComparison.sortedModels sortBy ≡ₚ ModelComparison.models ∧
  StronglySorted (ModelComparison.at_least_as_good sortBy)
                 (ModelComparison.sortedModels sortBy) ∧
  ∃ best,
    ModelComparison.getBestModel (ModelComparison.sortedModels sortBy) sortBy
      = inr best ∧
    head (ModelComparison.sortedModels sortBy) = Some best.
Proof.
  split; [apply sort_perm|]. split.
  - destruct sortBy;
      (set (l := ModelComparison.sortedModels _); vm_compute in l; subst l;
       repeat constructor; by vm_compute).
  - destruct sortBy; (eexists; split; by vm_compute).
Qed.

(** ** The quick start script *)

Section Script.
Import QuickStart.

Lemma polls_app (t1 t2 : list command) : polls (t1 ++ t2) = (polls t1 + polls t2)%nat.
Proof.
  induction t1 as [|c t1 IH]; [done|]. cbn [app]. unfold polls in *.
  cbn [foldr]. rewrite IH. by destruct c.
Qed.

Lemma slept_app (t1 t2 : list command) : slept (t1 ++ t2) = (slept t1 + slept t2)%nat.
Proof.
  induction t1 as [|c t1 IH]; [done|]. cbn [app]. unfold slept in *.
  cbn [foldr]. rewrite IH. destruct c; lia.
Qed.

Lemma poll_spec (env : Env) (fuel : nat) : ∀ attempt,
  (max_attempts ≤ attempt + fuel)%nat → (attempt ≤ max_attempts)%nat →
  ∃ out, poll env fuel attempt = Some out ∧ polled env attempt out.
Proof.
  unfold polled, max_attempts.
  assert (Hexit : ∀ attempt, (30 ≤ attempt)%nat →
    (∀ j, (attempt ≤ j < 30)%nat → healthy env j = false) ∧
    status (mkOutcome failed 1) = 1%nat ∧
    polls (trace (mkOutcome failed 1)) = (30 - attempt)%nat ∧
    slept (trace (mkOutcome failed 1)) = (2 * (30 - attempt))%nat).
  { intros attempt Hge. replace (30 - attempt)%nat with 0%nat by lia.
    split; [intros; lia|]. by split_and!. }
  induction fuel as [|fuel IH]; intros attempt Hfuel Hle; cbn [poll];
    unfold max_attempts; destruct (Nat.ltb_spec attempt 30) as [Hlt|Hge].
  - lia.
  - eexists. split; [done|]. right. by apply Hexit.
  - destruct (healthy env attempt) eqn:Hh.
    + eexists. split; [done|]. left. exists attempt. cbn [status trace].
      replace (attempt - attempt)%nat with 0%nat by lia.
      split; [lia|]. split; [done|]. split; [intros; lia|]. by split_and!.
    + destruct (IH (attempt + 1)%nat) as (out & Hout & Hcases); [lia..|].
      rewrite Hout. cbn [mbind option_bind]. eexists. split; [done|].
      cbn [status trace].
      destruct Hcases as [(k & Hk & Hhk & Hbefore & Hst & Hp & Hs)|(Hnone & Hst & Hp & Hs)].
      * left. exists k. split; [lia|]. split; [done|]. split.
        { intros j Hj. destruct (decide (j = attempt)) as [->|]; [done|].
          apply Hbefore. lia. }
        split; [done|]. split.
        -- cbn. unfold polls in Hp. rewrite Hp. lia.
        -- cbn. unfold slept in Hs. rewrite Hs. lia.
      * right. split.
        { intros j Hj. destruct (decide (j = attempt)) as [->|]; [done|].
          apply Hnone. lia. }
        split; [done|]. split.
        -- cbn. unfold polls in Hp. rewrite Hp. lia.
        -- cbn. unfold slept in Hs. rewrite Hs. lia.
  - eexists. split; [done|]. right. by apply Hexit.
Qed.

End Script.

(** X19: with Docker running and [docker-compose.yml] in place, the script
    polls the health endpoint until the first success and at most 30 times,
    sleeping 2 seconds after each failure: it exits with 0 after [k + 1]
    polls and [2 * k] seconds when poll [k] is the first to succeed, and
    with 1 after 30 polls and 60 seconds when none of them does. *)
Theorem script_polls (env : QuickStart.Env) :
  QuickStart.docker_running env = true → QuickStart.compose_file env = true →
  ∃ out, QuickStart.script env = Some out ∧
    ((∃ k, (k < 30)%nat ∧ QuickStart.healthy env k = true ∧
           (∀ j, (j < k)%nat → QuickStart.healthy env j = false) ∧
           QuickStart.status out = 0%nat ∧
           QuickStart.polls (QuickStart.trace out) = (k + 1)%nat ∧
           QuickStart.slept (QuickStart.trace out) = (2 * k)%nat) ∨
     ((∀ j, (j < 30)%nat → QuickStart.healthy env j = false) ∧
      QuickStart.status out = 1%nat ∧
      QuickStart.polls (QuickStart.trace out) = 30%nat ∧
      QuickStart.slept (QuickStart.trace out) = 60%nat)).
Proof.
  intros Hd Hc. unfold QuickStart.script. rewrite Hd, Hc. cbn [negb].
  destruct (poll_spec env QuickStart.max_attempts 0) as (out & Hout & Hcases);
    [unfold QuickStart.max_attempts; lia..|].
  rewrite Hout. cbn [mbind option_bind]. eexists. split; [done|].
  cbn [QuickStart.status QuickStart.trace]. rewrite !polls_app, !slept_app.
  change (QuickStart.polls QuickStart.banner) with 0%nat.
  change (QuickStart.slept QuickStart.banner) with 0%nat.
  change (QuickStart.polls QuickStart.starting) with 0%nat.
  change (QuickStart.slept QuickStart.starting) with 0%nat.
  change (QuickStart.polls [QuickStart.docker_info;
                            QuickStart.test_f "docker-compose.yml"]) with 0%nat.
  change (QuickStart.slept [QuickStart.docker_info;
                            QuickStart.test_f "docker-compose.yml"]) with 0%nat.
  unfold QuickStart.polled, QuickStart.max_attempts in Hcases.
  destruct Hcases as [(k & Hk & Hhk & Hbefore & Hst & Hp & Hs)|(Hnone & Hst & Hp & Hs)].
  - left. exists k. split; [lia|]. split; [done|]. split.
    { intros j Hj. apply Hbefore. lia. }
    split; [done|]. split; [rewrite Hp|rewrite Hs]; lia.
  - right. split.
    { intros j Hj. apply Hnone. lia. }
    split; [done|]. split; [rewrite Hp|rewrite Hs]; lia.
Qed.

Lemma script_polls_witness :
  (QuickStart.docker_running slow_start = true ∧
   QuickStart.compose_file slow_start = true) ∧
  ∃ out, QuickStart.script slow_start = Some out ∧
    ((∃ k, (k < 30)%nat ∧ QuickStart.healthy slow_start k = true ∧
           (∀ j, (j < k)%nat → QuickStart.healthy slow_start j = false) ∧
           QuickStart.status out = 0%nat ∧
           QuickStart.polls (QuickStart.trace out) = (k + 1)%nat ∧
           QuickStart.slept (QuickStart.trace out) = (2 * k)%nat) ∨
     ((∀ j, (j < 30)%nat → QuickStart.healthy slow_start j = false) ∧
      QuickStart.status out = 1%nat ∧
      QuickStart.polls (QuickStart.trace out) = 30%nat ∧
      QuickStart.slept (QuickStart.trace out) = 60%nat)).
Proof.
  split; [by split|].
  exact (script_polls slow_start eq_refl eq_refl).
Defined.

(** X20: the script always ends; it exits with 0 exactly when Docker runs,
    [docker-compose.yml] is in place and one of the first 30 polls
    succeeds, and with 1 otherwise; it starts the containers exactly when
    the two checks pass. *)
Theorem script_exit_status (env : QuickStart.Env) :
  ∃ out, QuickStart.script env = Some out ∧
    (QuickStart.status out = 0%nat ∨ QuickStart.status out = 1%nat) ∧
    (QuickStart.status out = 0%nat ↔
       QuickStart.docker_running env = true ∧
       QuickStart.compose_file env = true ∧
       ∃ k, (k < 30)%nat ∧ QuickStart.healthy env k = true) ∧
    (QuickStart.docker_compose_up ∈ QuickStart.trace out ↔
       QuickStart.docker_running env = true ∧
       QuickStart.compose_file env = true).
Proof.
  unfold QuickStart.script.
  destruct (QuickStart.docker_running env) eqn:Hd; cbn [negb].
  2:{ eexists. split; [done|]. cbn [QuickStart.status QuickStart.trace].
      split; [by right|]. split; [split; [done|by intros (? & _)]|].
      split; [|by intros (? & _)]. intros Hin. exfalso.
      vm_compute in Hin.
      repeat (apply elem_of_cons in Hin as [Hin|Hin]; [discriminate|]).
      by apply elem_of_nil in Hin. }
  destruct (QuickStart.compose_file env) eqn:Hc; cbn [negb].
  2:{ eexists. split; [done|]. cbn [QuickStart.status QuickStart.trace].
      split; [by right|]. split; [split; [done|by intros (_ & ? & _)]|].
      split; [|by intros (_ & ?)]. intros Hin. exfalso.
      vm_compute in Hin.
      repeat (apply elem_of_cons in Hin as [Hin|Hin]; [discriminate|]).
      by apply elem_of_nil in Hin. }
  destruct (poll_spec env QuickStart.max_attempts 0) as (out & Hout & Hcases);
    [unfold QuickStart.max_attempts; lia..|].
  rewrite Hout. cbn [mbind option_bind]. eexists. split; [done|].
  cbn [QuickStart.status QuickStart.trace].
  unfold QuickStart.polled, QuickStart.max_attempts in Hcases.
  split; [destruct Hcases as [(k & _ & _ & _ & -> & _)|(_ & -> & _)]; auto|].
  split.
  - destruct Hcases as [(k & Hk & Hhk & _ & -> & _)|(Hnone & -> & _)].
    + split; [|done]. intros _. split_and!; [done..|]. exists k. split; [lia|done].
    + split; [done|]. intros (_ & _ & k & Hk & Hhk).
      rewrite Hnone in Hhk by lia. done.
  - split; [done|]. intros _. unfold QuickStart.starting.
    rewrite !elem_of_app. right. right. left. right. left.
    by apply list_elem_of_singleton.
Qed.
